(** * App Store keyword research pipeline: the batch-analysis workflow

    A shallow embedding of [main.js] (the version with the [-search] mode):
    [collectAppData], [analyzeKeywordParallel], [processKeywordsBatch],
    [searchKeywords] and the command-line dispatch, together with the
    JavaScript primitives they rest on ([String.prototype.split],
    [String.prototype.trim], [parseInt], [Array.prototype.slice],
    [Array.prototype.sort]).

    Conventions.
    - A JavaScript string is its sequence of UTF-16 code units ([list N]).
    - A JavaScript number that the program only uses as an integer (scores,
      indices, the batch width, an app id) is a [Z]; [NaN] is [None] where
      it can arise ([parseInt], a division by zero in a log line).
    - The external collaborators (the ASO scorer, the App Store scraper)
      are oracles: the outcome of the [n]-th call that the program issues.
      Every run of the program against the real services is the run of the
      model against some oracle.
      Every call settles, resolved or rejected; the program sets no
      timeout, so a call that never settles would stall its batch.
    - Output that a claim can observe (scorer calls, the inter-batch
      delay, the batch header, warnings of the sequential loops) is
      recorded in a trace of events. The warning of a failed scorer call
      is printed when the call settles, at a point of the batch that the
      program does not determine; it is not recorded. *)

From Stdlib Require Import ZArith NArith List String Ascii Lia Permutation Sorted.
From stdpp Require Import base option list gmap.

Local Open Scope Z_scope.

(* ===================================================================== *)
(** ** JavaScript primitives *)
(* ===================================================================== *)

Module JS.

(** A string is a sequence of UTF-16 code units. *)
Definition jsstring : Type := list N.

(** A literal of the ASCII range, where code unit and byte agree. *)
Definition str (s : string) : jsstring :=
  List.map N_of_ascii (list_ascii_of_string s).

(** A promise that settles: resolved with a value, or rejected with an
    error whose [message] is kept. *)
Inductive outcome (A : Type) : Type :=
| Resolved (value : A)
| Rejected (message : jsstring).
Arguments Resolved {A} value.
Arguments Rejected {A} message.

(** WhiteSpace and LineTerminator code points, the set that [trim] and
    [parseInt] strip: TAB, LF, VT, FF, CR, SP, NBSP, U+1680,
    U+2000..U+200A, LS, PS, U+202F, U+205F, U+3000, BOM. *)
Definition isWhiteSpace (c : N) : bool :=
  ((9 <=? c) && (c <=? 13) || (c =? 32) || (c =? 160) || (c =? 5760)
   || (8192 <=? c) && (c <=? 8202) || (c =? 8232) || (c =? 8233)
   || (c =? 8239) || (c =? 8287) || (c =? 12288) || (c =? 65279))%N.

Fixpoint trimStart (s : jsstring) : jsstring :=
  match s with
  | [] => []
  | c :: s' => if isWhiteSpace c then trimStart s' else s
  end.

Fixpoint trimEnd (s : jsstring) : jsstring :=
  match s with
  | [] => []
  | c :: s' =>
      match trimEnd s' with
      | [] => if isWhiteSpace c then [] else [c]
      | t => c :: t
      end
  end.

(** [String.prototype.trim]. *)
Definition trim (s : jsstring) : jsstring := trimEnd (trimStart s).

(** [String.prototype.split] with a one-code-unit separator: the pieces
    between the occurrences of the separator, empty pieces included;
    the empty string splits into one empty piece. *)
Fixpoint split (sep : N) (s : jsstring) : list jsstring :=
  match s with
  | [] => [[]]
  | c :: s' =>
      if (c =? sep)%N then [] :: split sep s'
      else match split sep s' with
           | [] => [[c]]
           | p :: ps => (c :: p) :: ps
           end
  end.

(** [Array.prototype.join] with a one-code-unit separator. *)
Fixpoint join (sep : N) (ps : list jsstring) : jsstring :=
  match ps with
  | [] => []
  | [p] => p
  | p :: ps' => p ++ sep :: join sep ps'
  end.

(** The relative index of [slice]: a negative index counts from the end,
    and the result is clamped to [0..len]. *)
Definition relativeIndex (len r : Z) : Z :=
  if r <? 0 then Z.max (len + r) 0 else Z.min r len.

(** [Array.prototype.slice(start, end)]. *)
Definition slice {A : Type} (l : list A) (start end_ : Z) : list A :=
  let len := Z.of_nat (length l) in
  let k := relativeIndex len start in
  let final := relativeIndex len end_ in
  take (Z.to_nat (final - k)) (drop (Z.to_nat k) l).

(** The value of a code unit as a digit: [0-9], [a-z], [A-Z]. *)
Definition digitValue (c : N) : option Z :=
  if ((48 <=? c) && (c <=? 57))%N then Some (Z.of_N c - 48)
  else if ((97 <=? c) && (c <=? 122))%N then Some (Z.of_N c - 87)
  else if ((65 <=? c) && (c <=? 90))%N then Some (Z.of_N c - 55)
  else None.

(** The longest prefix of radix-[R] digits, read left to right:
    [acc] is the value read so far, [seen] whether a digit was read. *)
Fixpoint parseDigits (R : Z) (s : jsstring) (acc : Z) (seen : bool)
  : option Z :=
  match s with
  | [] => if seen then Some acc else None
  | c :: s' =>
      match digitValue c with
      | Some d =>
          if d <? R then parseDigits R s' (acc * R + d) true
          else if seen then Some acc else None
      | None => if seen then Some acc else None
      end
  end.

(** [parseInt(string, radix)]; [radix = None] is a call with one
    argument. [None] is [NaN]. The result is the exact integer: a double
    rounds integers beyond 2^53, which moves no such value across the
    small constants the program compares with. *)
Definition parseInt (s : jsstring) (radix : option Z) : option Z :=
  let s1 := trimStart s in
  let '(sign, s2) :=
    match s1 with
    | 45%N :: t => (-1, t)
    | 43%N :: t => (1, t)
    | _ => (1, s1)
    end in
  let R0 := match radix with Some r => r | None => 0 end in
  if (negb (R0 =? 0)) && ((R0 <? 2) || (36 <? R0)) then None
  else
    let stripPrefix := (R0 =? 0) || (R0 =? 16) in
    let R1 := if R0 =? 0 then 10 else R0 in
    let '(R, s3) :=
      match stripPrefix, s2 with
      | true, 48%N :: 120%N :: t => (16, t)
      | true, 48%N :: 88%N :: t => (16, t)
      | _, _ => (R1, s2)
      end in
    match parseDigits R s3 0 false with
    | Some n => Some (sign * n)
    | None => None
    end.

(** [Array.prototype.sort(comparefn)], as ECMAScript 2019 and later
    define it for a consistent comparator: the elements in an order in
    which [comparefn a b <= 0] for [a] before [b], elements that compare
    equal staying in their original order. The algorithm is the engine's
    choice; a stable insertion sort is taken here, and [sort_unique]
    below shows that every algorithm meeting the standard returns the
    same list. *)
Section Sort.
Context {A : Type} (comparefn : A -> A -> Z).

Fixpoint sortInsert (x : A) (l : list A) : list A :=
  match l with
  | [] => [x]
  | y :: l' =>
      if comparefn x y <=? 0 then x :: l else y :: sortInsert x l'
  end.

Fixpoint sort (l : list A) : list A :=
  match l with
  | [] => []
  | x :: l' => sortInsert x (sort l')
  end.
End Sort.

End JS.

Import JS.

(* ===================================================================== *)
(** ** Data model *)
(* ===================================================================== *)

(** What [asoAnalyzer.analyzeKeyword] resolves with (the fields that
    [analyzeKeywordParallel] reads). *)
Module Analysis.
Record t : Type := Make {
  keyword : jsstring;
  trafficScore : Z;
  difficultyScore : Z;
  competitionLevel : jsstring;
  trafficLevel : jsstring;
  recommendation : jsstring
}.
End Analysis.

(** The object that [analyzeKeywordParallel] returns; [error] is present
    only in the degraded result. *)
Record KeywordResult : Type := {
  keyword : jsstring;
  trafficScore : Z;
  difficultyScore : Z;
  competitionLevel : jsstring;
  trafficLevel : jsstring;
  recommendation : jsstring;
  error : option jsstring
}.

#[export] Instance KeywordResult_inhabited : Inhabited KeywordResult :=
  populate {| keyword := []; trafficScore := 0; difficultyScore := 0;
              competitionLevel := []; trafficLevel := [];
              recommendation := []; error := None |}.

(** Observable events of the keyword search. *)
Inductive event : Type :=
| LogBatch (number total : option Z) (size : nat)
    (* "Processing batch number/total (size keywords)" *)
| CallAnalyzeKeyword (n : nat) (keyword : jsstring)
    (* "Analyzing: keyword" and the n-th call of the scorer *)
| Delay (ms : Z)
    (* "Waiting 1 second before next batch..." and the timer *)
| ErrorNoValidKeywords.
    (* "No valid keywords provided" *)

(* ===================================================================== *)
(** ** The batch orchestrator *)
(* ===================================================================== *)

(** [Math.floor(a / b)] and [Math.ceil(a / b)] on integers; [None] when
    the quotient is [NaN] or infinite ([b = 0]). *)
Definition floorDiv (a b : Z) : option Z :=
  if b =? 0 then None else Some (a / b).

Definition ceilDiv (a b : Z) : option Z :=
  if b =? 0 then None else Some (- ((- a) / b)).

Record runState : Type := {
  results : list KeywordResult;   (* the array [results] *)
  calls : nat;                    (* scorer calls issued so far *)
  trace : list event
}.

Section Orchestrator.

(** The scorer: the outcome of the [n]-th call issued, for its keyword. *)
Variable analyzeKeyword : nat -> jsstring -> outcome Analysis.t.

(** [analyzeKeywordParallel(keyword, asoAnalyzer)], as the [n]-th call.
    The rejection of the scorer's promise is caught; nothing is thrown. *)
Definition analyzeKeywordParallel (n : nat) (keyword : jsstring)
  : KeywordResult :=
  match analyzeKeyword n keyword with
  | Resolved analysis =>
      {| keyword := Analysis.keyword analysis;
         trafficScore := Analysis.trafficScore analysis;
         difficultyScore := Analysis.difficultyScore analysis;
         competitionLevel := Analysis.competitionLevel analysis;
         trafficLevel := Analysis.trafficLevel analysis;
         recommendation := Analysis.recommendation analysis;
         error := None |}
  | Rejected message =>
      {| keyword := keyword;
         trafficScore := 0;
         difficultyScore := 0;
         competitionLevel := str "unknown";
         trafficLevel := str "unknown";
         recommendation := str "analysis_failed";
         error := Some message |}
  end.

(** [await Promise.all(batch.map(keyword => analyzeKeywordParallel(...)))]:
    [map] issues the calls in the order of the batch, numbered from [n],
    and [Promise.all] resolves with the results in that same order,
    whatever order the calls complete in. *)
Fixpoint analyzeBatch (n : nat) (batch : list jsstring)
  : list KeywordResult :=
  match batch with
  | [] => []
  | keyword :: rest =>
      analyzeKeywordParallel n keyword :: analyzeBatch (S n) rest
  end.

Fixpoint batchCalls (n : nat) (batch : list jsstring) : list event :=
  match batch with
  | [] => []
  | keyword :: rest => CallAnalyzeKeyword n keyword :: batchCalls (S n) rest
  end.

(** One iteration of the [for] loop at index [i]. *)
Definition batchStep (keywords : list jsstring) (batchSize i : Z)
    (st : runState) : runState :=
  let len := Z.of_nat (length keywords) in
  let batch := slice keywords i (i + batchSize) in
  let header :=
    LogBatch (option_map (Z.add 1) (floorDiv i batchSize))
             (ceilDiv len batchSize) (length batch) in
  let st1 :=
    {| results := results st ++ analyzeBatch (calls st) batch;
       calls := (calls st + length batch)%nat;
       trace := trace st ++ header :: batchCalls (calls st) batch |} in
  if i + batchSize <? len
  then {| results := results st1; calls := calls st1;
          trace := trace st1 ++ [Delay 1000] |}
  else st1.

(** [for (let i = 0; i < keywords.length; i += batchSize) { ... }]:
    [fuel] bounds the number of iterations, and [None] is a loop that
    is still running when the fuel is spent. *)
Fixpoint batchLoop (fuel : nat) (keywords : list jsstring)
    (batchSize i : Z) (st : runState) : option runState :=
  if i <? Z.of_nat (length keywords) then
    match fuel with
    | O => None
    | S fuel' =>
        batchLoop fuel' keywords batchSize (i + batchSize)
                  (batchStep keywords batchSize i st)
    end
  else Some st.

Definition processKeywordsBatch (fuel : nat) (keywords : list jsstring)
    (batchSize : Z) : option (list KeywordResult * list event) :=
  match batchLoop fuel keywords batchSize 0
          {| results := []; calls := 0; trace := [] |} with
  | Some st => Some (results st, trace st)
  | None => None
  end.

End Orchestrator.

(* ===================================================================== *)
(** ** Normalizer, ranker and [searchKeywords] *)
(* ===================================================================== *)

(** [keywordsString.split(',').map(k => k.trim()).filter(k => k.length > 0)] *)
Definition normalizeKeywords (keywordsString : jsstring) : list jsstring :=
  List.filter (fun keyword => (0 <? length keyword)%nat)
              (List.map trim (split 44 keywordsString)).

(** The comparator passed to [results.sort]. *)
Definition compareResults (a b : KeywordResult) : Z :=
  if negb (trafficScore b =? trafficScore a)
  then trafficScore b - trafficScore a
  else difficultyScore a - difficultyScore b.

(** The contents of [results] after [results.sort(...)]. *)
Definition rankResults (rs : list KeywordResult) : list KeywordResult :=
  sort compareResults rs.

Definition searchKeywords (analyzeKeyword : nat -> jsstring -> outcome Analysis.t)
    (fuel : nat) (keywordsString : jsstring) (concurrency : Z)
  : option (list KeywordResult * list event) :=
  let keywords := normalizeKeywords keywordsString in
  if (length keywords =? 0)%nat then Some ([], [ErrorNoValidKeywords])
  else
    match processKeywordsBatch analyzeKeyword fuel keywords concurrency with
    | Some (rs, tr) => Some (rankResults rs, tr)
    | None => None
    end.

(** *** The ranking step on the heap

    [results.sort(...)] sorts the array that [results] refers to, in
    place, and evaluates to that same reference. Arrays hold references
    to the result objects. *)
Module Store.

Definition ref : Type := positive.

Record heap : Type := {
  objects : gmap ref KeywordResult;
  arrays : gmap ref (list ref)
}.

Definition deref (h : heap) (r : ref) : KeywordResult := objects h !!! r.

Definition contents (h : heap) (a : ref) : option (list KeywordResult) :=
  List.map (deref h) <$> arrays h !! a.

(** [results.sort((a, b) => ...)] with [results] bound to [a]: the new
    heap and the value of the expression. [None]: [a] is no array. *)
Definition sortResults (h : heap) (a : ref) : option (heap * ref) :=
  match arrays h !! a with
  | Some elems =>
      let sorted :=
        sort (fun x y => compareResults (deref h x) (deref h y)) elems in
      Some ({| objects := objects h; arrays := <[a := sorted]> (arrays h) |},
            a)
  | None => None
  end.

End Store.

(* ===================================================================== *)
(** ** The command line *)
(* ===================================================================== *)

Inductive cliAction : Type :=
| Exit (code : Z) (message : jsstring)
    (* [console.error(message); process.exit(code)] *)
| Search (keywordsString : jsstring) (concurrency : Z)
    (* [searchKeywords(keywordsString, concurrency)] *)
| Analyze (appId : jsstring).
    (* [analyzeApp(appId)] *)

(** [v || d] on numbers: [NaN] and [0] are falsy. *)
Definition orElse (v : option Z) (d : Z) : Z :=
  match v with
  | Some n => if n =? 0 then d else n
  | None => d
  end.

(** [parseInt(args[k])]: a missing argument is [undefined], which
    [parseInt] reads as the string "undefined". *)
Definition parseIntArg (a : option jsstring) : option Z :=
  parseInt (default (str "undefined") a) None.

(** The block under [require.main === module], on
    [args = process.argv.slice(2)]. *)
Definition cli (args : list jsstring) : cliAction :=
  match args with
  | [] => Exit 1 (str "Please provide arguments")
  | arg0 :: _ =>
      if bool_decide (arg0 = str "-search") then
        match args !! 1%nat with
        | None | Some [] => Exit 1 (str "Please provide keywords after -search")
        | Some keywordsString =>
            let concurrency := orElse (parseIntArg (args !! 2%nat)) 3 in
            if (concurrency <? 1) || (20 <? concurrency)
            then Exit 1 (str "Concurrency must be between 1 and 20")
            else Search keywordsString concurrency
        end
      else
        match parseInt arg0 (Some 10) with
        | None => Exit 1 (str "App ID must be a valid numeric value")
        | Some numericAppId =>
            if numericAppId <=? 0
            then Exit 1 (str "App ID must be a valid numeric value")
            else Analyze arg0
        end
  end.

(** The scorer calls that an invocation leads to: none unless the
    dispatch reaches [searchKeywords]. [None]: the search is still
    running when the fuel is spent, or the mode is the app analysis,
    which this development does not follow past the dispatch. *)
Definition cliScorerCalls
    (analyzeKeyword : nat -> jsstring -> outcome Analysis.t)
    (fuel : nat) (args : list jsstring) : option (list event) :=
  match cli args with
  | Exit _ _ => Some []
  | Search keywordsString concurrency =>
      snd <$> searchKeywords analyzeKeyword fuel keywordsString concurrency
  | Analyze _ => None
  end.

(* ===================================================================== *)
(** ** Similar-app expansion: [collectAppData] *)
(* ===================================================================== *)

Module Collect.

(** An entry of the list that [getSimilarApps] resolves with. *)
Record SimilarApp : Type := { id : Z }.

Inductive event : Type :=
| GetAppData (n : nat) (appId : Z)       (* the n-th [getAppData] call *)
| GetSimilarApps (appId : Z)
| WarnSimilarFailed (appId : Z) (message : jsstring).

Section CollectAppData.

(** The metadata record; the program only passes it on. *)
Context {AppData : Type}.

Variable getAppData : nat -> Z -> outcome AppData.
Variable getSimilarApps : Z -> outcome (list SimilarApp).

Record scrapeState : Type := {
  similarAppsData : list AppData;
  calls : nat;
  trace : list event
}.

(** [for (const similarApp of top3SimilarApps) { try {...} catch {...} }] *)
Fixpoint scrapeSimilarApps (apps : list SimilarApp) (st : scrapeState)
  : scrapeState :=
  match apps with
  | [] => st
  | similarApp :: rest =>
      scrapeSimilarApps rest
        match getAppData (calls st) (id similarApp) with
        | Resolved similarAppData =>
            {| similarAppsData := similarAppsData st ++ [similarAppData];
               calls := S (calls st);
               trace := trace st ++ [GetAppData (calls st) (id similarApp)] |}
        | Rejected message =>
            {| similarAppsData := similarAppsData st;
               calls := S (calls st);
               trace := trace st ++ [GetAppData (calls st) (id similarApp);
                                     WarnSimilarFailed (id similarApp) message] |}
        end
  end.

Record collected : Type := {
  appData : AppData;
  similarApps : list AppData;
  numericAppId : Z
}.

(** [collectAppData(appId)]: the settled promise and the trace. *)
Definition collectAppData (appId : jsstring)
  : outcome collected * list event :=
  match parseInt appId (Some 10) with
  | None => (Rejected (str "App ID must be a valid numeric value"), [])
  | Some numericAppId =>
      if numericAppId <=? 0
      then (Rejected (str "App ID must be a valid numeric value"), [])
      else
        match getAppData 0%nat numericAppId with
        | Rejected message => (Rejected message, [GetAppData 0 numericAppId])
        | Resolved appData =>
            let tr := [GetAppData 0 numericAppId;
                       GetSimilarApps numericAppId] in
            match getSimilarApps numericAppId with
            | Rejected message => (Rejected message, tr)
            | Resolved allSimilarApps =>
                let top3SimilarApps := slice allSimilarApps 0 3 in
                let st :=
                  scrapeSimilarApps top3SimilarApps
                    {| similarAppsData := []; calls := 1; trace := tr |} in
                (Resolved {| appData := appData;
                             similarApps := similarAppsData st;
                             numericAppId := numericAppId |},
                 trace st)
            end
        end
  end.

(** The metadata of those of [apps] whose fetch succeeds, in the order of
    [apps], and the failures with their messages; the first of [apps] is
    fetched by call [n], the next by call [n + 1], and so on. *)
Fixpoint fetched (n : nat) (apps : list SimilarApp) : list AppData :=
  match apps with
  | [] => []
  | app :: rest =>
      match getAppData n (id app) with
      | Resolved d => d :: fetched (S n) rest
      | Rejected _ => fetched (S n) rest
      end
  end.

Fixpoint failed (n : nat) (apps : list SimilarApp) : list (Z * jsstring) :=
  match apps with
  | [] => []
  | app :: rest =>
      match getAppData n (id app) with
      | Resolved _ => failed (S n) rest
      | Rejected message => (id app, message) :: failed (S n) rest
      end
  end.

End CollectAppData.

(** The [getAppData] calls of a trace (number and app id), and its
    warnings (app id and message). *)
Definition fetchCalls (tr : list event) : list (nat * Z) :=
  omap (fun e => match e with GetAppData n i => Some (n, i) | _ => None end) tr.

Definition warnings (tr : list event) : list (Z * jsstring) :=
  omap (fun e => match e with WarnSimilarFailed i m => Some (i, m) | _ => None end)
       tr.

End Collect.

(* ===================================================================== *)
(** ** The app analysis: [generateAppKeywords], [analyzeRandomKeywords]
       and [analyzeApp] *)
(* ===================================================================== *)

Module Analyze.

(** An entry of [keywordAnalysis]. *)
Record sample : Type := {
  keyword : jsstring;
  traffic : Z;
  difficulty : Z
}.

Inductive scoreEvent : Type :=
| AnalyzeKeyword (n : nat) (keyword : jsstring)   (* the n-th scorer call *)
| WarnAnalyzeFailed (keyword : jsstring) (message : jsstring).

Record sampleState : Type := {
  samples : list sample;
  scored : nat;
  scoreLog : list scoreEvent
}.

Section AnalyzeApp.

(** The metadata record of an app, as the scraper returns it. *)
Context {AppData : Type}.

(** The keyword generator (the [n]-th call) and the scorer. *)
Variable generateKeywords : nat -> AppData -> outcome (list jsstring).
Variable analyzeKeyword : nat -> jsstring -> outcome Analysis.t.

(** [[...allKeywords].sort(() => 0.5 - Math.random())]: a copy of the
    array, sorted with a comparator that answers at random. The standard
    leaves the order to the engine; the elements are those of the
    array. The theorems assume no more of [shuffle] than that. *)
Variable shuffle : list jsstring -> list jsstring.

Inductive genEvent : Type :=
| GenerateKeywords (n : nat) (app : AppData)   (* the n-th generator call *)
| WarnGenerateFailed (app : AppData) (message : jsstring).

Record genState : Type := {
  gathered : list jsstring;   (* the array [similarAppKeywords] *)
  generated : nat;            (* generator calls issued so far *)
  genLog : list genEvent
}.

(** [for (const similarApp of similarApps) { try {...} catch {...} }] *)
Fixpoint generateSimilar (similarApps : list AppData) (st : genState)
  : genState :=
  match similarApps with
  | [] => st
  | similarApp :: rest =>
      generateSimilar rest
        match generateKeywords (generated st) similarApp with
        | Resolved keywords =>
            {| gathered := gathered st ++ keywords;
               generated := S (generated st);
               genLog := genLog st ++ [GenerateKeywords (generated st) similarApp] |}
        | Rejected message =>
            {| gathered := gathered st;
               generated := S (generated st);
               genLog := genLog st ++ [GenerateKeywords (generated st) similarApp;
                                       WarnGenerateFailed similarApp message] |}
        end
  end.

Record appKeywords : Type := {
  mainAppKeywords : list jsstring;
  similarAppKeywords : list jsstring;
  allKeywords : list jsstring
}.

(** [generateAppKeywords(appData, similarApps)] *)
Definition generateAppKeywords (appData : AppData) (similarApps : list AppData)
  : outcome appKeywords * list genEvent :=
  match generateKeywords 0%nat appData with
  | Rejected message => (Rejected message, [GenerateKeywords 0 appData])
  | Resolved keywords =>
      let st :=
        generateSimilar similarApps
          {| gathered := []; generated := 1;
             genLog := [GenerateKeywords 0 appData] |} in
      (Resolved {| mainAppKeywords := keywords;
                   similarAppKeywords := gathered st;
                   allKeywords := keywords ++ gathered st |},
       genLog st)
  end.

(** [for (const keyword of random5Keywords) { try {...} catch {...} }] *)
Fixpoint analyzeEach (keywords : list jsstring) (st : sampleState)
  : sampleState :=
  match keywords with
  | [] => st
  | keyword :: rest =>
      analyzeEach rest
        match analyzeKeyword (scored st) keyword with
        | Resolved analysis =>
            {| samples := samples st
                 ++ [ {| keyword := keyword;
                         traffic := Analysis.trafficScore analysis;
                         difficulty := Analysis.difficultyScore analysis |} ];
               scored := S (scored st);
               scoreLog := scoreLog st ++ [AnalyzeKeyword (scored st) keyword] |}
        | Rejected message =>
            {| samples := samples st;
               scored := S (scored st);
               scoreLog := scoreLog st ++ [AnalyzeKeyword (scored st) keyword;
                                           WarnAnalyzeFailed keyword message] |}
        end
  end.

(** [analyzeRandomKeywords(allKeywords)] *)
Definition analyzeRandomKeywords (allKeywords : list jsstring)
  : list sample * list scoreEvent :=
  let shuffled := shuffle allKeywords in
  let random5Keywords := slice shuffled 0 5 in
  let st := analyzeEach random5Keywords
              {| samples := []; scored := 0; scoreLog := [] |} in
  (samples st, scoreLog st).

Variable getAppData : nat -> Z -> outcome AppData.
Variable getSimilarApps : Z -> outcome (list Collect.SimilarApp).

Record analysis : Type := {
  appData : AppData;
  similarApps : list AppData;
  keywords : appKeywords;
  keywordAnalysis : list sample
}.

(** The output of the three steps, each step's after the one before. *)
Record log : Type := {
  collectLog : list Collect.event;
  generateLog : list genEvent;
  analyzeLog : list scoreEvent
}.

(** [analyzeApp(appId)]: an error of a step is logged and thrown again. *)
Definition analyzeApp (appId : jsstring) : outcome analysis * log :=
  match Collect.collectAppData getAppData getSimilarApps appId with
  | (Rejected message, tr) =>
      (Rejected message,
       {| collectLog := tr; generateLog := []; analyzeLog := [] |})
  | (Resolved collected, tr) =>
      match generateAppKeywords (Collect.appData collected)
                                (Collect.similarApps collected) with
      | (Rejected message, gtr) =>
          (Rejected message,
           {| collectLog := tr; generateLog := gtr; analyzeLog := [] |})
      | (Resolved kws, gtr) =>
          let '(keywordAnalysis, atr) := analyzeRandomKeywords (allKeywords kws) in
          (Resolved {| appData := Collect.appData collected;
                       similarApps := Collect.similarApps collected;
                       keywords := kws;
                       keywordAnalysis := keywordAnalysis |},
           {| collectLog := tr; generateLog := gtr; analyzeLog := atr |})
      end
  end.

(** The keywords generated for those of [apps] whose generation
    succeeds, in the order of [apps]; the first of [apps] is the subject
    of call [n]. *)
Fixpoint gatheredFrom (n : nat) (apps : list AppData) : list jsstring :=
  match apps with
  | [] => []
  | app :: rest =>
      match generateKeywords n app with
      | Resolved keywords => keywords ++ gatheredFrom (S n) rest
      | Rejected _ => gatheredFrom (S n) rest
      end
  end.

(** The apps of the generator calls of a log. *)
Definition generatorCalls (tr : list genEvent) : list AppData :=
  omap (fun e => match e with GenerateKeywords _ app => Some app | _ => None end)
       tr.

End AnalyzeApp.

(** The keywords of the scorer calls of a log, and of its warnings. *)
Definition scoredKeywords (tr : list scoreEvent) : list jsstring :=
  omap (fun e => match e with AnalyzeKeyword _ k => Some k | _ => None end) tr.

Definition failedKeywords (tr : list scoreEvent) : list jsstring :=
  omap (fun e => match e with WarnAnalyzeFailed k _ => Some k | _ => None end) tr.

End Analyze.

(* ===================================================================== *)
(** ** The keyword generator: [services/keyword-generator.js] *)
(* ===================================================================== *)

Module Generator.

(** [String.prototype.startsWith] and [String.prototype.includes]. *)
Fixpoint startsWith (s p : jsstring) {struct p} : bool :=
  match p, s with
  | [], _ => true
  | _ :: _, [] => false
  | c :: p', d :: s' => (c =? d)%N && startsWith s' p'
  end.

Fixpoint includes (s sub : jsstring) : bool :=
  startsWith s sub
  || match s with
     | [] => false
     | _ :: s' => includes s' sub
     end.

(** The app data that the generator reads. *)
Record appData : Type := {
  title : jsstring;
  description : jsstring;
  screenshots : list jsstring
}.

(** What [fetch] resolves with: [ok], [status], the Content-Type header
    ([headers.get] gives [null] when there is none) and the body, whose
    reading can fail in turn. *)
Record response : Type := {
  ok : bool;
  status : Z;
  contentType : option jsstring;
  arrayBuffer : outcome (list N)
}.

(** A part of the message sent to the model: the prompt, which is a fixed
    text around the title and the description, or an image. *)
Inductive contentPart : Type :=
| TextPrompt (title description : jsstring)
| Image (media_type data : jsstring).

(** A block of the model's answer, by its [type]. *)
Inductive block : Type :=
| ToolUse (name : jsstring) (keywords : list jsstring)
| OtherBlock (type : jsstring).

Record imageData : Type := {
  base64 : jsstring;
  mediaType : jsstring
}.

Section Generator.

(** [fetch(url)] and [fs.readFileSync(path)] for the [k]-th screenshot,
    and [anthropic.messages.create] for a message content. *)
Variable fetch : nat -> jsstring -> outcome response.
Variable readFileSync : nat -> jsstring -> outcome (list N).
Variable messagesCreate : list contentPart -> outcome (list block).

(** [Buffer.prototype.toString('base64')] and
    [String.prototype.toLowerCase]. *)
Variable toBase64 : list N -> jsstring.
Variable toLowerCase : jsstring -> jsstring.

(** The media type that [fetchImageAsBase64] settles on: from the
    Content-Type header when there is one, else from the URL. *)
Definition detectMediaType (contentType : option jsstring)
    (imageUrl : jsstring) : jsstring :=
  match contentType with
  | Some (c :: ct) =>
      let contentType := c :: ct in
      if includes contentType (str "image/png") then str "image/png"
      else if includes contentType (str "image/jpeg")
              || includes contentType (str "image/jpg") then str "image/jpeg"
      else if includes contentType (str "image/webp") then str "image/webp"
      else if includes contentType (str "image/gif") then str "image/gif"
      else str "image/jpeg"
  | _ =>
      if includes (toLowerCase imageUrl) (str ".png") then str "image/png"
      else if includes (toLowerCase imageUrl) (str ".webp") then str "image/webp"
      else if includes (toLowerCase imageUrl) (str ".gif") then str "image/gif"
      else str "image/jpeg"
  end.

(** [fetchImageAsBase64(imageUrl)], for the [k]-th screenshot: whatever
    goes wrong inside is caught, logged and replaced by one error. *)
Definition fetchImageAsBase64 (k : nat) (imageUrl : jsstring)
  : outcome imageData :=
  let failed := Rejected (str "Failed to fetch image: " ++ imageUrl) in
  match fetch k imageUrl with
  | Rejected _ => failed
  | Resolved response =>
      if negb (ok response) then failed
      else
        match arrayBuffer response with
        | Rejected _ => failed
        | Resolved buffer =>
            Resolved {| base64 := toBase64 buffer;
                        mediaType := detectMediaType (contentType response)
                                                     imageUrl |}
        end
  end.

(** [readImageAsBase64(imagePath)] *)
Definition readImageAsBase64 (k : nat) (imagePath : jsstring)
  : outcome jsstring :=
  match readFileSync k imagePath with
  | Resolved imageBuffer => Resolved (toBase64 imageBuffer)
  | Rejected message => Rejected message
  end.

(** The body of the loop over the screenshots: the image part to push,
    or the message of the error that is caught. *)
Definition processScreenshot (k : nat) (screenshot : jsstring)
  : outcome contentPart :=
  if startsWith screenshot (str "http://")
     || startsWith screenshot (str "https://")
  then
    match fetchImageAsBase64 k screenshot with
    | Resolved imageData =>
        Resolved (Image (mediaType imageData) (base64 imageData))
    | Rejected message => Rejected message
    end
  else
    match readImageAsBase64 k screenshot with
    | Resolved base64Image => Resolved (Image (str "image/jpeg") base64Image)
    | Rejected message => Rejected message
    end.

(** [for (const screenshot of appData.screenshots) { try {...} catch {...} }],
    from screenshot number [k] on, pushing onto [content]. *)
Fixpoint addScreenshots (k : nat) (screenshots : list jsstring)
    (content : list contentPart) : list contentPart :=
  match screenshots with
  | [] => content
  | screenshot :: rest =>
      addScreenshots (S k) rest
        match processScreenshot k screenshot with
        | Resolved part => content ++ [part]
        | Rejected _ => content
        end
  end.

(** [response.content.find(content => content.type === 'tool_use')] *)
Fixpoint findToolUse (content : list block)
  : option (jsstring * list jsstring) :=
  match content with
  | [] => None
  | ToolUse name keywords :: _ => Some (name, keywords)
  | OtherBlock _ :: rest => findToolUse rest
  end.

(** [generateKeywords(appData)]: an error is logged and thrown again. *)
Definition generateKeywords (appData : appData) : outcome (list jsstring) :=
  let content :=
    addScreenshots 0 (screenshots appData)
                   [TextPrompt (title appData) (description appData)] in
  match messagesCreate content with
  | Rejected message => Rejected message
  | Resolved response =>
      match findToolUse response with
      | Some (name, keywords) =>
          if bool_decide (name = str "generate_app_keywords")
          then Resolved keywords
          else Rejected (str "No valid function call found in response")
      | None => Rejected (str "No valid function call found in response")
      end
  end.

(** The content that [generateKeywords] sends. *)
Definition sentContent (appData : appData) : list contentPart :=
  addScreenshots 0 (screenshots appData)
                 [TextPrompt (title appData) (description appData)].

End Generator.

(** The media types that an image part can carry. *)
Definition mediaTypes : list jsstring :=
  [str "image/png"; str "image/jpeg"; str "image/webp"; str "image/gif"].

Definition isImage (p : contentPart) : bool :=
  match p with Image _ _ => true | TextPrompt _ _ => false end.

End Generator.

(* ===================================================================== *)
(** ** The keyword optimizer: [keyword-optimizer.js] *)
(* ===================================================================== *)

Module Optimizer.

(** The object that [findBestKeyword] returns. *)
Module Best.
Record t : Type := {
  keyword : jsstring;
  trafficScore : Z;
  difficultyScore : Z;
  recommendation : jsstring;
  score : Z
}.
End Best.

(** The callback of the [reduce]: the current element replaces the
    previous best only when its score is strictly higher. *)
Definition better (prev current : KeywordResult) : KeywordResult :=
  let prevScore := trafficScore prev - difficultyScore prev in
  let currentScore := trafficScore current - difficultyScore current in
  if currentScore >? prevScore then current else prev.

(** [findBestKeyword(asoResults)]: [reduce] without an initial value
    throws a [TypeError] on an empty array. *)
Definition findBestKeyword (asoResults : list KeywordResult)
  : outcome Best.t :=
  match asoResults with
  | [] => Rejected (str "Reduce of empty array with no initial value")
  | first :: rest =>
      let best := fold_left better rest first in
      Resolved {| Best.keyword := keyword best;
                  Best.trafficScore := trafficScore best;
                  Best.difficultyScore := difficultyScore best;
                  Best.recommendation := recommendation best;
                  Best.score := trafficScore best - difficultyScore best |}
  end.

(** The object [counts] that [summarizeRecommendations] starts from. *)
Definition initialCounts : gmap (list N) Z :=
  <[str "excellent" := 0]>
    (<[str "good" := 0]>
       (<[str "consider" := 0]>
          (<[str "challenging" := 0]> (<[str "avoid" := 0]> ∅)))).

(** The callback of the [forEach]:
    [if (counts.hasOwnProperty(r.recommendation)) counts[r.recommendation]++]. *)
Definition countRecommendation (counts : gmap (list N) Z) (r : KeywordResult)
  : gmap (list N) Z :=
  match counts !! recommendation r with
  | Some n => <[recommendation r := n + 1]> counts
  | None => counts
  end.

(** [summarizeRecommendations(asoResults)] *)
Definition summarizeRecommendations (asoResults : list KeywordResult)
  : gmap (list N) Z :=
  fold_left countRecommendation asoResults initialCounts.

Inductive event : Type :=
| GenerateKeywords                                  (* the generator call *)
| AnalyzeKeywords (keywords : list jsstring)        (* the scorer call *)
| CreateMessage.                                    (* the suggestion call *)

(** The result of [optimizeKeywords]: [workflow] and [summary]. *)
Record optimization : Type := {
  initialKeywords : list jsstring;
  analyzedKeywords : list KeywordResult;
  additionalSuggestions : list jsstring;
  totalInitialKeywords : nat;
  analyzedCount : nat;
  additionalSuggestionsCount : nat;
  bestPerformingKeyword : Best.t;
  recommendations : gmap (list N) Z
}.

Section Optimizer.

(** The app data; the result only names its title. *)
Context {AppData : Type}.

(** [generateKeywords(appData)] resolves with an object whose [keywords]
    may be missing; [asoAnalyzer.analyzeKeywords(keywords)];
    [anthropic.messages.create] for the prompt that
    [getSuggestionsBasedOnASO] builds from the app data and the results. *)
Variable generateKeywords : AppData -> outcome (option (list jsstring)).
Variable analyzeKeywords : list jsstring -> outcome (list KeywordResult).
Variable messagesCreate :
  AppData -> list KeywordResult -> outcome (list Generator.block).

(** [getSuggestionsBasedOnASO(appData, asoResults)]: an error is logged
    and thrown again. *)
Definition getSuggestionsBasedOnASO (appData : AppData)
    (asoResults : list KeywordResult) : outcome (list jsstring) :=
  match messagesCreate appData asoResults with
  | Rejected message => Rejected message
  | Resolved response =>
      match Generator.findToolUse response with
      | Some (name, keywords) =>
          if bool_decide (name = str "suggest_additional_keywords")
          then Resolved keywords
          else Rejected (str "No valid suggestions found in response")
      | None => Rejected (str "No valid suggestions found in response")
      end
  end.

(** [optimizeKeywords(appData, platform, keywordsToAnalyze)]: the settled
    promise and the external calls made, in order. *)
Definition optimizeKeywords (appData : AppData) (keywordsToAnalyze : Z)
  : outcome optimization * list event :=
  match generateKeywords appData with
  | Rejected message => (Rejected message, [GenerateKeywords])
  | Resolved None | Resolved (Some []) =>
      (Rejected (str "No initial keywords generated"), [GenerateKeywords])
  | Resolved (Some keywords) =>
      let keywordsToTest := slice keywords 0 keywordsToAnalyze in
      let tr1 := [GenerateKeywords; AnalyzeKeywords keywordsToTest] in
      match analyzeKeywords keywordsToTest with
      | Rejected message => (Rejected message, tr1)
      | Resolved asoResults =>
          let tr2 := tr1 ++ [CreateMessage] in
          match getSuggestionsBasedOnASO appData asoResults with
          | Rejected message => (Rejected message, tr2)
          | Resolved suggestions =>
              match findBestKeyword asoResults with
              | Rejected message => (Rejected message, tr2)
              | Resolved bestKeyword =>
                  (Resolved
                     {| initialKeywords := keywords;
                        analyzedKeywords := asoResults;
                        additionalSuggestions := suggestions;
                        totalInitialKeywords := length keywords;
                        analyzedCount := length asoResults;
                        additionalSuggestionsCount := length suggestions;
                        bestPerformingKeyword := bestKeyword;
                        recommendations := summarizeRecommendations asoResults |},
                   tr2)
              end
          end
      end
  end.

End Optimizer.

(** The five labels that [summarizeRecommendations] counts. *)
Definition labels : list jsstring :=
  [str "excellent"; str "good"; str "consider"; str "challenging"; str "avoid"].

(** The score that [findBestKeyword] compares. *)
Definition scoreOf (r : KeywordResult) : Z :=
  trafficScore r - difficultyScore r.

End Optimizer.

(* ===================================================================== *)
(** ** The standalone generator: the options of [generateKeywords] *)
(* ===================================================================== *)

Module Standalone.

Section Config.

(** The values of the options (strings, numbers, [undefined], ...) and
    their truthiness, which [||] tests. *)
Context {value : Type}.
Variable truthy : value -> bool.

(** 'claude-sonnet-4-20250514', 2000, 0.3 and 15. *)
Variables defaultModel defaultMaxTokens defaultTemperature defaultMinKeywords
  : value.

(** [options.key || fallback]: a missing property reads as [undefined],
    which is falsy. *)
Definition orDefault (v : option value) (fallback : value) : value :=
  match v with
  | Some x => if truthy x then x else fallback
  | None => fallback
  end.

(** [const config = { model: options.model || ..., maxTokens: ...,
    temperature: ..., minKeywords: ..., ...options }]: the four
    properties, over which the spread then writes every property of
    [options]. *)
Definition config (options : gmap (list N) value) : gmap (list N) value :=
  options
  ∪ <[str "model" := orDefault (options !! str "model") defaultModel]>
      (<[str "maxTokens" := orDefault (options !! str "maxTokens")
                                      defaultMaxTokens]>
         (<[str "temperature" := orDefault (options !! str "temperature")
                                           defaultTemperature]>
            (<[str "minKeywords" := orDefault (options !! str "minKeywords")
                                              defaultMinKeywords]> ∅))).

(** The defaults alone. *)
Definition defaultConfig : gmap (list N) value :=
  <[str "model" := defaultModel]>
    (<[str "maxTokens" := defaultMaxTokens]>
       (<[str "temperature" := defaultTemperature]>
          (<[str "minKeywords" := defaultMinKeywords]> ∅))).

End Config.

End Standalone.

(* ===================================================================== *)
(** ** Specification-side definitions *)
(* ===================================================================== *)

(** The consecutive chunks of [w] elements of a list, the last one
    possibly shorter; [n] bounds the number of chunks. *)
Fixpoint chunksUpTo {A : Type} (n w : nat) (l : list A) : list (list A) :=
  match n with
  | O => []
  | S n' =>
      match l with
      | [] => []
      | _ => take w l :: chunksUpTo n' w (drop w l)
      end
  end.

Definition chunks {A : Type} (w : nat) (l : list A) : list (list A) :=
  chunksUpTo (length l) w l.

(** The number of [Delay] events and of batch headers of a trace, and
    the keywords of its scorer calls. *)
Definition isDelay (e : event) : bool :=
  match e with Delay _ => true | _ => false end.

Definition isLogBatch (e : event) : bool :=
  match e with LogBatch _ _ _ => true | _ => false end.

Definition delayCount (tr : list event) : nat :=
  length (List.filter isDelay tr).

Definition batchCount (tr : list event) : nat :=
  length (List.filter isLogBatch tr).

Definition calledKeywords (tr : list event) : list jsstring :=
  omap (fun e => match e with CallAnalyzeKeyword _ k => Some k | _ => None end)
       tr.

(** The order of a comparator: [a] may stand before [b]. *)
Definition notAfter {A : Type} (comparefn : A -> A -> Z) (a b : A) : Prop :=
  comparefn a b <= 0.

(** Elements that the comparator does not tell apart. *)
Definition tied {A : Type} (comparefn : A -> A -> Z) (a b : A) : bool :=
  (comparefn a b <=? 0) && (comparefn b a <=? 0).

(** A segment that is whitespace only (the empty segment included). *)
Definition allWhiteSpace (s : jsstring) : bool := forallb isWhiteSpace s.

(** A string with no whitespace at either end. *)
Definition trimmed (s : jsstring) : Prop :=
  (forall c, head s = Some c -> isWhiteSpace c = false)
  /\ (forall c, last s = Some c -> isWhiteSpace c = false).

(** The batches that a trace shows: the keywords of the scorer calls
    between one batch header and the next. [groupCalls] returns the calls
    that precede the first header, and the batches. *)
Fixpoint groupCalls (tr : list event) : list jsstring * list (list jsstring) :=
  match tr with
  | [] => ([], [])
  | e :: tr' =>
      let '(cur, bs) := groupCalls tr' in
      match e with
      | CallAnalyzeKeyword _ k => (k :: cur, bs)
      | LogBatch _ _ _ => ([], cur :: bs)
      | _ => (cur, bs)
      end
  end.

Definition traceBatches (tr : list event) : list (list jsstring) :=
  snd (groupCalls tr).

(** The numbers of the scorer calls of a trace. *)
Definition callNumbers (tr : list event) : list nat :=
  omap (fun e => match e with CallAnalyzeKeyword n _ => Some n | _ => None end)
       tr.

(** The degraded result of a keyword whose scoring failed. *)
Definition degraded (keyword : jsstring) (message : jsstring) : KeywordResult :=
  {| keyword := keyword;
     trafficScore := 0;
     difficultyScore := 0;
     competitionLevel := str "unknown";
     trafficLevel := str "unknown";
     recommendation := str "analysis_failed";
     error := Some message |}.

(** The trace of the batches [bs], the first of them being batch number
    [k + 1] of [total] and starting with scorer call [n]: each batch is
    its header and its calls, and a delay follows every batch but the
    last. *)
Fixpoint batchesTrace (total : Z) (k : Z) (n : nat) (bs : list (list jsstring))
  : list event :=
  match bs with
  | [] => []
  | b :: bs' =>
      LogBatch (Some (k + 1)) (Some total) (length b) :: batchCalls n b
        ++ (match bs' with [] => [] | _ => [Delay 1000] end)
        ++ batchesTrace total (k + 1) (n + length b)%nat bs'
  end.

(** [Math.ceil(a / b)] for a positive [b]. *)
Definition ceiling (a b : Z) : Z := (a + b - 1) / b.

(** The order that the ranker establishes: higher traffic first, and for
    equal traffic lower difficulty first. *)
Definition rankedBefore (a b : KeywordResult) : Prop :=
  trafficScore a > trafficScore b \/
  (trafficScore a = trafficScore b /\ difficultyScore a <= difficultyScore b).

(** Two results tied on both keys. *)
Definition sameKeys (a b : KeywordResult) : bool :=
  (trafficScore a =? trafficScore b) && (difficultyScore a =? difficultyScore b).




(** The image parts that the screenshots give, in order: those of the
    screenshots that are processed without an error; the first of the
    screenshots has number [k]. *)
Fixpoint imageParts (process : nat -> jsstring -> outcome Generator.contentPart)
    (k : nat) (screenshots : list jsstring) : list Generator.contentPart :=
  match screenshots with
  | [] => []
  | screenshot :: rest =>
      match process k screenshot with
      | Resolved part => part :: imageParts process (S k) rest
      | Rejected _ => imageParts process (S k) rest
      end
  end.

(** A screenshot given as a URL, as [generateKeywords] tells. *)
Definition isUrl (screenshot : jsstring) : bool :=
  Generator.startsWith screenshot (str "http://")
  || Generator.startsWith screenshot (str "https://").

(** The number of results with a given recommendation. *)
Definition recommended (k : jsstring) (rs : list KeywordResult) : Z :=
  Z.of_nat (length (List.filter
                      (fun r => bool_decide (recommendation r = k)) rs)).

(** A keyword as the normalizer delivers it: not empty, no whitespace at
    either end, no comma. *)
Definition validKeyword (k : jsstring) : Prop :=
  k <> [] /\ trimmed k /\ ~ In 44%N k.

(* ===================================================================== *)
(** ** Data of the examples *)
(* ===================================================================== *)

(** A scorer for the examples: every call with an odd number fails. *)
Definition oddCallsFail (n : nat) (k : jsstring) : outcome Analysis.t :=
  if Nat.even n
  then Resolved (Analysis.Make k (Z.of_nat n) 1 (str "low") (str "high")
                               (str "target"))
  else Rejected (str "timeout").

Definition sevenKeywords : list jsstring :=
  List.map str ["a"; "b"; "c"; "d"; "e"; "f"; "g"]%string.

(** A result with the given keyword and scores. *)
Definition result (k : string) (traffic diff : Z) : KeywordResult :=
  {| keyword := str k; trafficScore := traffic; difficultyScore := diff;
     competitionLevel := str "medium"; trafficLevel := str "medium";
     recommendation := str "consider"; error := None |}.

(** A heap with one array of two results, a(50/30) and b(70/10). *)
Definition twoResults : Store.heap :=
  {| Store.objects := {[ 10%positive := result "a" 50 30;
                         11%positive := result "b" 70 10 ]};
     Store.arrays := {[ 1%positive := [10%positive; 11%positive] ]} |}.

(** The scraper of the scenario: three similar apps, and the fetch of
    the second of them (call number 2) fails. *)
Definition secondSimilarFails (n : nat) (appId : Z) : outcome Z :=
  if (n =? 2)%nat then Rejected (str "not found") else Resolved (appId * 10).

Definition fourSimilarApps (appId : Z) : outcome (list Collect.SimilarApp) :=
  Resolved [ {| Collect.id := 101 |}; {| Collect.id := 102 |};
             {| Collect.id := 103 |}; {| Collect.id := 104 |} ].

(** A generator for the examples: the keywords of an app are its number
    and the number after it, as strings of one code unit; the call with
    number 2 fails. *)
Definition secondGenerationFails (n : nat) (app : Z) : outcome (list jsstring) :=
  if (n =? 2)%nat then Rejected (str "overloaded")
  else Resolved [[Z.to_N app]; [Z.to_N (app + 1)]].

(** Collaborators of the generator for the examples: every download
    answers 200 with a PNG content type, except that of screenshot
    number 1, which answers 404; every local file can be read; the
    model answers with a text block and two tool uses. *)
Definition pngExceptSecond (k : nat) (url : jsstring)
  : outcome Generator.response :=
  Resolved {| Generator.ok := negb (k =? 1)%nat;
              Generator.status := if (k =? 1)%nat then 404 else 200;
              Generator.contentType := Some (str "image/png; q=1");
              Generator.arrayBuffer := Resolved [137%N; 80%N] |}.

Definition readableFiles (k : nat) (path : jsstring) : outcome (list N) :=
  Resolved [255%N; 216%N].

Definition twoToolUses (content : list Generator.contentPart)
  : outcome (list Generator.block) :=
  Resolved [Generator.OtherBlock (str "text");
            Generator.ToolUse (str "generate_app_keywords")
                              [str "plant id"; str "garden"];
            Generator.ToolUse (str "something_else") [str "ignored"]].

Definition plantApp : Generator.appData :=
  {| Generator.title := str "PlantNet";
     Generator.description := str "Identify plants";
     Generator.screenshots :=
       [str "https://cdn/1.jpg"; str "http://cdn/2.png"; str "mock/s3.png"] |}.

(** Collaborators of the optimizer for the examples: three keywords are
    generated; the scorer gives each keyword its length as trafficScore;
    the model suggests one more keyword. *)
Definition threeKeywords (app : Z) : outcome (option (list jsstring)) :=
  Resolved (Some [str "plant"; str "plant care"; str "flower"]).

Definition scoreByLength (keywords : list jsstring)
  : outcome (list KeywordResult) :=
  Resolved (List.map (fun k => {| keyword := k;
                                  trafficScore := Z.of_nat (length k);
                                  difficultyScore := 3;
                                  competitionLevel := str "low";
                                  trafficLevel := str "low";
                                  recommendation := str "good";
                                  error := None |}) keywords).

Definition oneSuggestion (app : Z) (asoResults : list KeywordResult)
  : outcome (list Generator.block) :=
  Resolved [Generator.ToolUse (str "suggest_additional_keywords")
                              [str "garden"]].

(* ===================================================================== *)
(** ** Examples *)
(* ===================================================================== *)

Example split_example :
  split 44 (str " a, b ,, c ") = [str " a"; str " b "; str ""; str " c "].
Proof. reflexivity. Qed.

Example parseInt_examples :
  parseInt (str "25") None = Some 25 /\
  parseInt (str "0") None = Some 0 /\
  parseInt (str " -7px") None = Some (-7) /\
  parseInt (str "0x1F") None = Some 31 /\
  parseInt (str "0x1F") (Some 10) = Some 0 /\
  parseInt (str "abc") None = None /\
  parseInt (str "undefined") None = None.
Proof. repeat split; reflexivity. Qed.

Example slice_examples :
  slice [1; 2; 3; 4; 5] 1 3 = [2; 3] /\
  slice [1; 2; 3; 4; 5] 3 9 = [4; 5] /\
  slice [1; 2; 3; 4; 5] 0 (-2) = [1; 2; 3] /\
  slice [1; 2; 3; 4; 5] (-2) (-4) = [] /\
  slice [1; 2; 3; 4; 5] 0 0 = [].
Proof. repeat split; reflexivity. Qed.

Example trim_examples :
  trim (str "  photo editor ") = str "photo editor" /\
  trim (str "   ") = str "" /\
  trim [160%N; 97%N; 8232%N] = [97%N].
Proof. repeat split; reflexivity. Qed.

(** Seven keywords at width 3: batches of 3, 3 and 1, and two delays. *)
Example processKeywordsBatch_example :
  snd <$> processKeywordsBatch oddCallsFail 3 sevenKeywords 3 =
    Some [LogBatch (Some 1) (Some 3) 3;
          CallAnalyzeKeyword 0 (str "a"); CallAnalyzeKeyword 1 (str "b");
          CallAnalyzeKeyword 2 (str "c"); Delay 1000;
          LogBatch (Some 2) (Some 3) 3;
          CallAnalyzeKeyword 3 (str "d"); CallAnalyzeKeyword 4 (str "e");
          CallAnalyzeKeyword 5 (str "f"); Delay 1000;
          LogBatch (Some 3) (Some 3) 1;
          CallAnalyzeKeyword 6 (str "g")].
Proof. reflexivity. Qed.

(** A search whose second call fails: with its zero scores the degraded
    result ranks after z (traffic 2) and, by its difficulty 0, before x
    (traffic 0, difficulty 1). *)
Example searchKeywords_example :
  fst <$> searchKeywords oddCallsFail 5 (str "x, y ,z") 2 =
    Some [ {| keyword := str "z"; trafficScore := 2; difficultyScore := 1;
              competitionLevel := str "low"; trafficLevel := str "high";
              recommendation := str "target"; error := None |};
           degraded (str "y") (str "timeout");
           {| keyword := str "x"; trafficScore := 0; difficultyScore := 1;
              competitionLevel := str "low"; trafficLevel := str "high";
              recommendation := str "target"; error := None |} ].
Proof. reflexivity. Qed.

(* ===================================================================== *)
(** ** Facts about the primitives *)
(* ===================================================================== *)

(** *** [slice] *)

Lemma slice_window {A : Type} (l : list A) (i w : nat) :
  (i <= length l)%nat ->
  slice l (Z.of_nat i) (Z.of_nat i + Z.of_nat w) = take w (drop i l).
Proof.
  intros Hi. unfold slice, relativeIndex.
  rewrite (proj2 (Z.ltb_ge (Z.of_nat i) 0)) by lia.
  rewrite (proj2 (Z.ltb_ge (Z.of_nat i + Z.of_nat w) 0)) by lia.
  rewrite (Z.min_l (Z.of_nat i)) by lia.
  rewrite Nat2Z.id.
  destruct (Z.min_spec (Z.of_nat i + Z.of_nat w) (Z.of_nat (length l)))
    as [[Hlt ->] | [Hge ->]].
  - f_equal. lia.
  - rewrite !take_ge; try reflexivity; rewrite length_drop; lia.
Qed.

Lemma slice_prefix {A : Type} (l : list A) (n : nat) :
  slice l 0 (Z.of_nat n) = take n l.
Proof.
  pose proof (slice_window l 0 n) as H. simpl in H. apply H. lia.
Qed.

(** *** [chunks] *)

Lemma chunksUpTo_enough {A : Type} (w : nat) :
  (1 <= w)%nat ->
  forall n m (l : list A),
    (length l <= n)%nat -> (length l <= m)%nat ->
    chunksUpTo n w l = chunksUpTo m w l.
Proof.
  intros Hw. induction n as [|n IH]; intros m l Hn Hm.
  - destruct l; simpl in Hn; [|lia]. destruct m; reflexivity.
  - destruct m as [|m].
    + destruct l; simpl in Hm; [reflexivity | lia].
    + destruct l as [|x l]; [reflexivity|].
      simpl chunksUpTo. f_equal.
      apply IH; rewrite length_drop; simpl in *; lia.
Qed.

Lemma chunks_nil {A : Type} (w : nat) : chunks w (@nil A) = [].
Proof. reflexivity. Qed.

Lemma chunks_step {A : Type} (w : nat) (l : list A) :
  (1 <= w)%nat -> l <> [] ->
  chunks w l = take w l :: chunks w (drop w l).
Proof.
  intros Hw Hl. unfold chunks.
  destruct l as [|x l]; [congruence|].
  change (length (x :: l)) with (S (length l)).
  cbn [chunksUpTo]. f_equal.
  apply chunksUpTo_enough; [assumption | |]; rewrite !length_drop;
    simpl; lia.
Qed.

(** Induction along the chunks of a list. *)
Lemma chunks_ind {A : Type} (w : nat) (Hw : (1 <= w)%nat)
    (P : list A -> Prop) :
  P [] ->
  (forall l, l <> [] -> P (drop w l) -> P l) ->
  forall l, P l.
Proof.
  intros Hnil Hstep l.
  remember (length l) as n eqn:Hn.
  revert l Hn. induction n as [n IH] using lt_wf_ind. intros l Hn.
  destruct l as [|x l]; [exact Hnil|].
  apply Hstep; [congruence|].
  apply (IH (length (drop w (x :: l)))); [|reflexivity].
  rewrite length_drop. subst n. simpl. lia.
Qed.

Lemma chunks_concat {A : Type} (w : nat) (l : list A) :
  (1 <= w)%nat -> concat (chunks w l) = l.
Proof.
  intros Hw. induction l as [|l Hl IH] using (chunks_ind w Hw).
  - reflexivity.
  - rewrite chunks_step by assumption. simpl. rewrite IH.
    apply take_drop.
Qed.

Lemma chunks_nonempty {A : Type} (w : nat) (l : list A) :
  (1 <= w)%nat -> (chunks w l = [] <-> l = []).
Proof.
  intros Hw. split.
  - intros H. destruct l as [|x l]; [reflexivity|].
    rewrite chunks_step in H by (assumption || congruence). discriminate.
  - intros ->. reflexivity.
Qed.

(** Every chunk but the last has exactly [w] elements; the last has
    between [1] and [w]. *)
Lemma chunks_sizes {A : Type} (w : nat) (l : list A) :
  (1 <= w)%nat ->
  forall k b, chunks w l !! k = Some b ->
    (1 <= length b <= w)%nat /\
    ((S k < length (chunks w l))%nat -> length b = w).
Proof.
  intros Hw. induction l as [|l Hl IH] using (chunks_ind w Hw).
  - intros k b H. rewrite chunks_nil in H. destruct k; discriminate.
  - intros k b. rewrite chunks_step by assumption.
    destruct k as [|k]; simpl.
    + intros [= <-]. rewrite length_take.
      destruct l as [|x l]; [congruence|]. split; [simpl; lia|].
      intros Hlen.
      destruct (chunks w (drop w (x :: l))) as [|c cs] eqn:Hc;
        [simpl in Hlen; lia|].
      assert (drop w (x :: l) <> []) as Hd.
      { intros Hd. rewrite Hd in Hc. discriminate. }
      assert (length (drop w (x :: l)) <> 0%nat) as Hd'.
      { destruct (drop w (x :: l)); [congruence | simpl; lia]. }
      rewrite length_drop in Hd'. lia.
    + intros H. destruct (IH k b H) as [H1 H2]. split; [assumption|].
      intros Hlen. apply H2. lia.
Qed.

(** The number of chunks is the ceiling of [length l / w]. *)
Lemma chunks_length_bounds {A : Type} (w : nat) (l : list A) :
  (1 <= w)%nat -> l <> [] ->
  ((length (chunks w l) - 1) * w < length l <= length (chunks w l) * w)%nat
  /\ (1 <= length (chunks w l))%nat.
Proof.
  intros Hw. induction l as [|l Hl IH] using (chunks_ind w Hw).
  - congruence.
  - intros _. rewrite chunks_step by assumption. simpl length.
    destruct (drop w l) as [|y d] eqn:Hd.
    + rewrite chunks_nil. simpl.
      assert (length (drop w l) = 0%nat) as Hd' by (rewrite Hd; reflexivity).
      rewrite length_drop in Hd'.
      destruct l; [congruence|]. simpl in *. lia.
    + destruct IH as [IH1 IH2]; [congruence|].
      assert (length (drop w l) = length (y :: d)) as Hd' by (rewrite Hd; reflexivity).
      rewrite length_drop in Hd'.
      split; [|lia]. nia.
Qed.

Lemma ceiling_unique (a b n : Z) :
  0 < b -> (n - 1) * b < a <= n * b -> ceiling a b = n.
Proof.
  intros Hb H. unfold ceiling. symmetry.
  apply (Z.div_unique_pos _ _ _ (a + b - 1 - n * b)); lia.
Qed.

Lemma ceilDiv_ceiling (a b : Z) : 0 < b -> ceilDiv a b = Some (ceiling a b).
Proof.
  intros Hb. unfold ceilDiv.
  rewrite (proj2 (Z.eqb_neq b 0)) by lia. f_equal.
  unfold ceiling.
  pose proof (Z.div_mod (- a) b ltac:(lia)) as H1.
  pose proof (Z.mod_pos_bound (- a) b Hb) as H2.
  apply (Z.div_unique_pos _ _ _ (a + b - 1 + b * (- a / b))); lia.
Qed.

Lemma chunks_length {A : Type} (w : nat) (l : list A) :
  (1 <= w)%nat ->
  Z.of_nat (length (chunks w l)) =
    ceiling (Z.of_nat (length l)) (Z.of_nat w).
Proof.
  intros Hw. destruct (decide (l = [])) as [-> | Hl].
  - simpl. unfold ceiling. symmetry. apply Z.div_small. lia.
  - symmetry. apply ceiling_unique; [lia|].
    destruct (chunks_length_bounds w l Hw Hl) as [H1 H2].
    nia.
Qed.

(* ===================================================================== *)
(** ** The batch orchestrator: what a run computes *)
(* ===================================================================== *)

Section OrchestratorFacts.

Variable analyzeKeyword : nat -> jsstring -> outcome Analysis.t.

Lemma analyzeBatch_app (n : nat) (b1 b2 : list jsstring) :
  analyzeBatch analyzeKeyword n (b1 ++ b2) =
    analyzeBatch analyzeKeyword n b1
      ++ analyzeBatch analyzeKeyword (n + length b1) b2.
Proof.
  revert n. induction b1 as [|k b1 IH]; intros n; simpl.
  - f_equal. lia.
  - f_equal. rewrite IH. do 2 f_equal. lia.
Qed.

Lemma analyzeBatch_length (n : nat) (b : list jsstring) :
  length (analyzeBatch analyzeKeyword n b) = length b.
Proof. revert n. induction b; intros n; simpl; auto. Qed.

Lemma analyzeBatch_lookup (n j : nat) (b : list jsstring) :
  analyzeBatch analyzeKeyword n b !! j =
    analyzeKeywordParallel analyzeKeyword (n + j) <$> b !! j.
Proof.
  revert n j. induction b as [|k b IH]; intros n j; [reflexivity|].
  destruct j as [|j]; simpl.
  - do 2 f_equal. lia.
  - rewrite IH. do 2 f_equal. lia.
Qed.

Lemma batchLoop_exit (fuel : nat) (keywords : list jsstring)
    (batchSize i : Z) (st : runState) :
  Z.of_nat (length keywords) <= i ->
  batchLoop analyzeKeyword fuel keywords batchSize i st = Some st.
Proof.
  intros H. destruct fuel; simpl;
    rewrite (proj2 (Z.ltb_ge _ _)) by lia; reflexivity.
Qed.

(** The loop from a batch boundary: [done] has been processed in [k]
    full batches, [rest] is still to do. It ends within as many
    iterations as [rest] has chunks, with one result per keyword of
    [rest] and the trace of those chunks. *)
Lemma batchLoop_spec (w : nat) (keywords : list jsstring) :
  (1 <= w)%nat ->
  forall fuel rest done k st,
    keywords = done ++ rest ->
    length done = (k * w)%nat ->
    (length (chunks w rest) <= fuel)%nat ->
    batchLoop analyzeKeyword fuel keywords (Z.of_nat w)
              (Z.of_nat (length done)) st =
      Some {| results := results st ++ analyzeBatch analyzeKeyword (calls st) rest;
              calls := (calls st + length rest)%nat;
              trace := trace st
                ++ batchesTrace (ceiling (Z.of_nat (length keywords)) (Z.of_nat w))
                     (Z.of_nat k) (calls st) (chunks w rest) |}.
Proof.
  intros Hw. induction fuel as [|fuel IH]; intros rest done k st Hkw Hk Hfuel.
  - assert (rest = []) as ->.
    { apply (proj1 (chunks_nonempty w rest Hw)).
      destruct (chunks w rest); [reflexivity | simpl in Hfuel; lia]. }
    rewrite batchLoop_exit by (subst keywords; rewrite length_app; simpl; lia).
    destruct st; simpl. rewrite !app_nil_r, Nat.add_0_r. reflexivity.
  - destruct (decide (rest = [])) as [-> | Hrest].
    { rewrite batchLoop_exit
        by (subst keywords; rewrite length_app; simpl; lia).
      destruct st; simpl. rewrite !app_nil_r, Nat.add_0_r. reflexivity. }
    assert (0 < length rest)%nat as Hpos
      by (destruct rest; [congruence | simpl; lia]).
    assert (length keywords = (length done + length rest)%nat) as Hlen
      by (subst keywords; apply length_app).
    cbn [batchLoop].
    rewrite (proj2 (Z.ltb_lt _ _)) by lia.
    assert (slice keywords (Z.of_nat (length done))
                  (Z.of_nat (length done) + Z.of_nat w) = take w rest) as Hbatch.
    { rewrite slice_window by lia. subst keywords.
      rewrite drop_app_length. reflexivity. }
    assert (floorDiv (Z.of_nat (length done)) (Z.of_nat w) = Some (Z.of_nat k))
      as Hfloor.
    { unfold floorDiv. rewrite (proj2 (Z.eqb_neq _ 0)) by lia. f_equal.
      rewrite Hk, Nat2Z.inj_mul. apply Z.div_mul. lia. }
    rewrite chunks_step in Hfuel |- * by assumption.
    unfold batchStep. rewrite Hbatch, Hfloor, ceilDiv_ceiling by lia.
    cbn [option_map batchesTrace].
    destruct (Z.ltb_spec (Z.of_nat (length done) + Z.of_nat w)
                         (Z.of_nat (length keywords))) as [Hmore | Hlast].
    + (* a further batch follows *)
      assert (length (take w rest) = w) as Htake
        by (rewrite length_take; lia).
      assert (drop w rest <> []) as Hdrop.
      { intros Hd. pose proof (length_drop rest w) as Hl.
        rewrite Hd in Hl. simpl in Hl. lia. }
      replace (Z.of_nat (length done) + Z.of_nat w)
        with (Z.of_nat (length (done ++ take w rest)))
        by (rewrite length_app, Htake; lia).
      rewrite (IH (drop w rest) (done ++ take w rest) (S k)).
      * cbn [results calls trace]. f_equal. f_equal.
        -- rewrite <- app_assoc, <- analyzeBatch_app, take_drop. reflexivity.
        -- rewrite <- Nat.add_assoc, <- length_app, take_drop. reflexivity.
        -- destruct (chunks w (drop w rest)) as [|c cs] eqn:Hc.
           { apply (proj1 (chunks_nonempty w (drop w rest) Hw)) in Hc.
             congruence. }
           rewrite <- !app_assoc. cbn [app].
           replace (Z.of_nat (S k)) with (Z.of_nat k + 1) by lia.
           replace (1 + Z.of_nat k) with (Z.of_nat k + 1) by lia.
           reflexivity.
      * subst keywords. rewrite <- app_assoc, take_drop. reflexivity.
      * rewrite length_app, Htake. lia.
      * simpl in Hfuel. lia.
    + (* the last batch *)
      assert (take w rest = rest) as Htake by (apply take_ge; lia).
      assert (drop w rest = []) as Hdrop by (apply drop_ge; lia).
      rewrite batchLoop_exit by lia.
      rewrite Htake, Hdrop, chunks_nil. cbn [results calls trace batchesTrace app].
      rewrite !app_nil_r.
      replace (Z.add 1 (Z.of_nat k)) with (Z.of_nat k + 1) by lia.
      reflexivity.
Qed.

(** The loop takes one iteration for each batch: with less fuel than
    [rest] has chunks it is still running when the fuel is spent. *)
Lemma batchLoop_short_of_fuel (w : nat) (keywords : list jsstring) :
  (1 <= w)%nat ->
  forall fuel rest done st,
    keywords = done ++ rest ->
    (fuel < length (chunks w rest))%nat ->
    batchLoop analyzeKeyword fuel keywords (Z.of_nat w)
              (Z.of_nat (length done)) st = None.
Proof.
  intros Hw. induction fuel as [|fuel IH]; intros rest done st Hkw Hfuel.
  - destruct rest as [|k rest]; [simpl in Hfuel; lia|].
    cbn [batchLoop]. subst keywords. rewrite length_app. cbn [length].
    rewrite (proj2 (Z.ltb_lt _ _)) by lia. reflexivity.
  - destruct (decide (rest = [])) as [-> | Hrest]; [simpl in Hfuel; lia|].
    rewrite chunks_step in Hfuel by assumption. cbn [length] in Hfuel.
    assert (drop w rest <> []) as Hdrop.
    { intros Hd. rewrite Hd, chunks_nil in Hfuel. simpl in Hfuel. lia. }
    assert (w < length rest)%nat as Hlong.
    { pose proof (length_drop rest w) as Hl.
      destruct (drop w rest); [congruence | simpl in Hl; lia]. }
    assert (length keywords = (length done + length rest)%nat) as Hlen
      by (subst keywords; apply length_app).
    cbn [batchLoop]. rewrite (proj2 (Z.ltb_lt _ _)) by lia.
    replace (Z.of_nat (length done) + Z.of_nat w)
      with (Z.of_nat (length (done ++ take w rest)))
      by (rewrite length_app, length_take; lia).
    apply (IH (drop w rest)).
    + subst keywords. rewrite <- app_assoc, take_drop. reflexivity.
    + lia.
Qed.

(** A run with a width of at least one, and fuel for every batch. *)
Lemma processKeywordsBatch_spec (fuel : nat) (keywords : list jsstring)
    (batchSize : Z) :
  1 <= batchSize ->
  (length (chunks (Z.to_nat batchSize) keywords) <= fuel)%nat ->
  processKeywordsBatch analyzeKeyword fuel keywords batchSize =
    Some (analyzeBatch analyzeKeyword 0 keywords,
          batchesTrace (ceiling (Z.of_nat (length keywords)) batchSize) 0 0
                       (chunks (Z.to_nat batchSize) keywords)).
Proof.
  intros Hw Hfuel. unfold processKeywordsBatch.
  pose proof (batchLoop_spec (Z.to_nat batchSize) keywords ltac:(lia)
                fuel keywords [] 0%nat
                {| results := []; calls := 0; trace := [] |}
                eq_refl eq_refl Hfuel) as H.
  rewrite Z2Nat.id in H by lia.
  change (Z.of_nat (length (@nil jsstring))) with 0 in H.
  change (Z.of_nat 0) with 0 in H.
  rewrite H. reflexivity.
Qed.

(** With a width of zero or less the loop condition holds forever. *)
Lemma batchLoop_diverges (keywords : list jsstring) (batchSize : Z) :
  batchSize <= 0 -> keywords <> [] ->
  forall fuel i st, i <= 0 ->
    batchLoop analyzeKeyword fuel keywords batchSize i st = None.
Proof.
  intros Hw Hne.
  assert (0 < Z.of_nat (length keywords)) as Hlen
      by (destruct keywords; [congruence | simpl; lia]).
  induction fuel as [|fuel IH]; intros i st Hi; cbn [batchLoop];
    rewrite (proj2 (Z.ltb_lt _ _)) by lia; [reflexivity|].
  apply IH. lia.
Qed.

End OrchestratorFacts.

(** *** What the trace of the batches shows *)

Lemma groupCalls_batchCalls (n : nat) (b : list jsstring) (tr : list event) :
  groupCalls (batchCalls n b ++ tr) =
    (b ++ fst (groupCalls tr), snd (groupCalls tr)).
Proof.
  revert n. induction b as [|k b IH]; intros n; simpl.
  - destruct (groupCalls tr); reflexivity.
  - rewrite IH. reflexivity.
Qed.

Lemma groupCalls_batchesTrace (total k : Z) (n : nat) (bs : list (list jsstring)) :
  groupCalls (batchesTrace total k n bs) = ([], bs).
Proof.
  revert k n. induction bs as [|b bs IH]; intros k n; [reflexivity|].
  cbn [batchesTrace groupCalls].
  rewrite groupCalls_batchCalls.
  destruct bs as [|b' bs'].
  - cbn [app batchesTrace groupCalls fst snd]. rewrite app_nil_r. reflexivity.
  - cbn [app groupCalls]. rewrite IH. cbn [fst snd].
    rewrite app_nil_r. reflexivity.
Qed.

Lemma filter_batchCalls (f : event -> bool) (n : nat) (b : list jsstring) :
  (forall m k, f (CallAnalyzeKeyword m k) = false) ->
  List.filter f (batchCalls n b) = [].
Proof.
  intros Hf. revert n. induction b as [|k b IH]; intros n; simpl;
    [reflexivity|]. rewrite Hf. apply IH.
Qed.

Lemma batchCount_batchesTrace (total k : Z) (n : nat) (bs : list (list jsstring)) :
  batchCount (batchesTrace total k n bs) = length bs.
Proof.
  unfold batchCount. revert k n.
  induction bs as [|b bs IH]; intros k n; [reflexivity|].
  cbn [batchesTrace List.filter isLogBatch length].
  rewrite !List.filter_app, !length_app, filter_batchCalls by reflexivity.
  rewrite IH. destruct bs; reflexivity.
Qed.

Lemma delayCount_batchesTrace (total k : Z) (n : nat) (bs : list (list jsstring)) :
  delayCount (batchesTrace total k n bs) = (length bs - 1)%nat.
Proof.
  unfold delayCount. revert k n.
  induction bs as [|b bs IH]; intros k n; [reflexivity|].
  cbn [batchesTrace List.filter isDelay].
  rewrite !List.filter_app, !length_app, filter_batchCalls by reflexivity.
  rewrite IH. destruct bs; simpl; lia.
Qed.

Lemma calledKeywords_app (t1 t2 : list event) :
  calledKeywords (t1 ++ t2) = calledKeywords t1 ++ calledKeywords t2.
Proof. apply omap_app. Qed.

Lemma callNumbers_app (t1 t2 : list event) :
  callNumbers (t1 ++ t2) = callNumbers t1 ++ callNumbers t2.
Proof. apply omap_app. Qed.

Lemma calledKeywords_batchCalls (n : nat) (b : list jsstring) :
  calledKeywords (batchCalls n b) = b.
Proof.
  revert n. induction b as [|k b IH]; intros n; [reflexivity|].
  cbn. f_equal. apply IH.
Qed.

Lemma callNumbers_batchCalls (n : nat) (b : list jsstring) :
  callNumbers (batchCalls n b) = seq n (length b).
Proof.
  revert n. induction b as [|k b IH]; intros n; [reflexivity|].
  cbn. f_equal. apply IH.
Qed.

Lemma calledKeywords_batchesTrace (total k : Z) (n : nat)
    (bs : list (list jsstring)) :
  calledKeywords (batchesTrace total k n bs) = concat bs.
Proof.
  revert k n. induction bs as [|b bs IH]; intros k n; [reflexivity|].
  cbn [batchesTrace concat].
  change (calledKeywords (?e :: ?t)) with (calledKeywords ([e] ++ t)).
  rewrite !calledKeywords_app, calledKeywords_batchCalls, IH.
  destruct bs; reflexivity.
Qed.

Lemma callNumbers_batchesTrace (total k : Z) (n : nat)
    (bs : list (list jsstring)) :
  callNumbers (batchesTrace total k n bs) = seq n (length (concat bs)).
Proof.
  revert k n. induction bs as [|b bs IH]; intros k n; [reflexivity|].
  cbn [batchesTrace concat].
  change (callNumbers (?e :: ?t)) with (callNumbers ([e] ++ t)).
  rewrite !callNumbers_app, callNumbers_batchCalls, IH.
  rewrite length_app, seq_app.
  destruct bs; reflexivity.
Qed.

Lemma chunks_count_le {A : Type} (w : nat) (l : list A) :
  (1 <= w)%nat -> (length (chunks w l) <= length l)%nat.
Proof.
  intros Hw. destruct (decide (l = [])) as [-> | Hl]; [reflexivity|].
  destruct (chunks_length_bounds w l Hw Hl) as [H1 H2]. nia.
Qed.

(* ===================================================================== *)
(** ** The batch orchestrator: results, batches, failures, termination *)
(* ===================================================================== *)

(** C1. For a batch width of at least one (the orchestrator's contract),
    whatever the scorer answers and however many of its calls fail,
    [processKeywordsBatch] returns a sequence with exactly one result per
    input keyword: as long as the input, its [j]-th entry being the result
    of the call for the [j]-th keyword. Degraded results carry the input
    keyword; when the scorer echoes the keyword it was asked about, the
    keywords of the results are the input keywords, in order. *)
Theorem processKeywordsBatch_one_result_per_keyword
    (analyzeKeyword : nat -> jsstring -> outcome Analysis.t)
    (keywords : list jsstring) (batchSize : Z) (fuel : nat) :
  1 <= batchSize ->
  (length keywords <= fuel)%nat ->
  exists rs tr,
    processKeywordsBatch analyzeKeyword fuel keywords batchSize = Some (rs, tr)
    /\ length rs = length keywords
    /\ (forall j, rs !! j =
                  analyzeKeywordParallel analyzeKeyword j <$> keywords !! j)
    /\ ((forall n k a, analyzeKeyword n k = Resolved a -> Analysis.keyword a = k)
        -> List.map keyword rs = keywords).
Proof.
  intros Hw Hfuel.
  exists (analyzeBatch analyzeKeyword 0 keywords). eexists.
  split; [|split; [|split]].
  - apply processKeywordsBatch_spec; [assumption|].
    etransitivity; [apply chunks_count_le; lia | assumption].
  - apply analyzeBatch_length.
  - intros j. apply analyzeBatch_lookup.
  - intros Hecho. generalize 0%nat.
    induction keywords as [|k ks IH]; intros n; [reflexivity|].
    cbn [analyzeBatch List.map]. f_equal.
    + unfold analyzeKeywordParallel.
      destruct (analyzeKeyword n k) as [a|m] eqn:Ha; [|reflexivity].
      simpl. eauto.
    + apply IH. simpl in Hfuel. lia.
Qed.

Lemma processKeywordsBatch_one_result_per_keyword_witness :
  exists rs tr,
    processKeywordsBatch oddCallsFail 7 sevenKeywords 3 = Some (rs, tr)
    /\ length rs = length sevenKeywords
    /\ (forall j, rs !! j =
                  analyzeKeywordParallel oddCallsFail j <$> sevenKeywords !! j)
    /\ ((forall n k a, oddCallsFail n k = Resolved a -> Analysis.keyword a = k)
        -> List.map keyword rs = sevenKeywords).
Proof.
  apply (processKeywordsBatch_one_result_per_keyword
           oddCallsFail sevenKeywords 3 7).
  - lia.
  - vm_compute. lia.
Defined.

(** C2. For a list of [L] keywords and a width [W] with [1 <= W <= 20],
    the run ends and its trace is that of the chunks of [W] keywords, in
    order: the batches it shows are contiguous pieces of the list that
    concatenate to it, there are [ceil(L/W)] of them, each has [W]
    keywords except that the last may have fewer (never none), every
    scorer call of a batch precedes the delay that separates it from the
    next batch, and the delays number [ceil(L/W) - 1], none when
    [L <= W]. *)
Theorem processKeywordsBatch_batches
    (analyzeKeyword : nat -> jsstring -> outcome Analysis.t)
    (keywords : list jsstring) (W : Z) (fuel : nat) :
  1 <= W <= 20 ->
  (length keywords <= fuel)%nat ->
  let L := Z.of_nat (length keywords) in
  exists rs tr,
    processKeywordsBatch analyzeKeyword fuel keywords W = Some (rs, tr)
    /\ tr = batchesTrace (ceiling L W) 0 0 (traceBatches tr)
    /\ concat (traceBatches tr) = keywords
    /\ Z.of_nat (length (traceBatches tr)) = ceiling L W
    /\ Z.of_nat (batchCount tr) = ceiling L W
    /\ (forall k b, traceBatches tr !! k = Some b ->
          1 <= Z.of_nat (length b) <= W
          /\ ((S k < length (traceBatches tr))%nat -> Z.of_nat (length b) = W))
    /\ Z.of_nat (delayCount tr) = (if L <=? W then 0 else ceiling L W - 1)
    /\ (1 <= L -> Z.of_nat (delayCount tr) = ceiling L W - 1).
Proof.
  intros [Hw1 Hw20] Hfuel L.
  set (w := Z.to_nat W).
  assert (1 <= w)%nat as Hw by lia.
  assert (Z.of_nat w = W) as HwW by lia.
  exists (analyzeBatch analyzeKeyword 0 keywords).
  exists (batchesTrace (ceiling L W) 0 0 (chunks w keywords)).
  unfold traceBatches. rewrite groupCalls_batchesTrace. cbn [snd].
  pose proof (chunks_length w keywords Hw) as Hlen.
  rewrite HwW in Hlen. fold L in Hlen.
  split; [|split; [|split; [|split; [|split; [|split; [|split]]]]]].
  - apply processKeywordsBatch_spec; [assumption|].
    etransitivity; [apply chunks_count_le; lia | assumption].
  - reflexivity.
  - apply chunks_concat. assumption.
  - assumption.
  - rewrite batchCount_batchesTrace. assumption.
  - intros k b Hb. destruct (chunks_sizes w keywords Hw k b Hb) as [H1 H2].
    split; [lia|]. intros Hk. rewrite (H2 Hk). assumption.
  - rewrite delayCount_batchesTrace.
    destruct (Z.leb_spec L W) as [Hle | Hgt].
    + assert (ceiling L W <= 1); [|lia].
      destruct (Z.eq_dec L 0) as [-> | Hne].
      * unfold ceiling. rewrite Z.div_small; lia.
      * rewrite (ceiling_unique L W 1); lia.
    + assert (2 <= ceiling L W); [|lia].
      unfold ceiling. apply Z.div_le_lower_bound; lia.
  - intros HL. rewrite delayCount_batchesTrace.
    assert (1 <= ceiling L W); [|lia].
    unfold ceiling. apply Z.div_le_lower_bound; lia.
Qed.

Lemma processKeywordsBatch_batches_witness :
  exists rs tr,
    processKeywordsBatch oddCallsFail 7 sevenKeywords 3 = Some (rs, tr)
    /\ traceBatches tr =
         [List.map str ["a"; "b"; "c"]%string;
          List.map str ["d"; "e"; "f"]%string;
          List.map str ["g"]%string]
    /\ delayCount tr = 2%nat.
Proof.
  destruct (processKeywordsBatch_batches oddCallsFail sevenKeywords 3 7)
    as (rs & tr & Hrun & _).
  - lia.
  - vm_compute. lia.
  - exists rs, tr. split; [exact Hrun|].
    vm_compute in Hrun. injection Hrun as <- <-.
    split; reflexivity.
Defined.

(** C3. A keyword whose scoring call fails gets the degraded result:
    scores 0, both levels 'unknown', recommendation 'analysis_failed' and
    the error's message. The run goes on to the end all the same, the
    result of every other keyword is what its own call gives, whatever
    happens to the calls of the others (a run against any other scorer
    that answers the [j]-th call alike has the same [j]-th result), and
    the scorer is called once per keyword, failed or not: the calls of the
    trace are the keywords in order, numbered [0 .. L-1]. *)
Theorem processKeywordsBatch_failure_isolated
    (analyzeKeyword : nat -> jsstring -> outcome Analysis.t)
    (keywords : list jsstring) (batchSize : Z) (fuel : nat) :
  1 <= batchSize ->
  (length keywords <= fuel)%nat ->
  exists rs tr,
    processKeywordsBatch analyzeKeyword fuel keywords batchSize = Some (rs, tr)
    /\ (forall j k message,
          keywords !! j = Some k ->
          analyzeKeyword j k = Rejected message ->
          rs !! j = Some (degraded k message))
    /\ (forall (analyzeKeyword' : nat -> jsstring -> outcome Analysis.t) j k,
          keywords !! j = Some k ->
          analyzeKeyword' j k = analyzeKeyword j k ->
          exists rs' tr',
            processKeywordsBatch analyzeKeyword' fuel keywords batchSize
              = Some (rs', tr')
            /\ rs' !! j = rs !! j)
    /\ calledKeywords tr = keywords
    /\ callNumbers tr = seq 0 (length keywords).
Proof.
  intros Hw Hfuel.
  assert (forall f, processKeywordsBatch f fuel keywords batchSize =
            Some (analyzeBatch f 0 keywords,
                  batchesTrace (ceiling (Z.of_nat (length keywords)) batchSize)
                    0 0 (chunks (Z.to_nat batchSize) keywords))) as Hrun.
  { intros f. apply processKeywordsBatch_spec; [assumption|].
    etransitivity; [apply chunks_count_le; lia | assumption]. }
  eexists. eexists. split; [apply Hrun|].
  split; [|split; [|split]].
  - intros j k message Hk Hfail.
    rewrite analyzeBatch_lookup, Hk. cbn.
    unfold analyzeKeywordParallel. rewrite Hfail. reflexivity.
  - intros f j k Hk Hsame.
    eexists. eexists. split; [apply Hrun|].
    rewrite !analyzeBatch_lookup, Hk. cbn.
    unfold analyzeKeywordParallel. rewrite Hsame. reflexivity.
  - rewrite calledKeywords_batchesTrace. apply chunks_concat. lia.
  - rewrite callNumbers_batchesTrace, chunks_concat by lia. reflexivity.
Qed.

Lemma processKeywordsBatch_failure_isolated_witness :
  exists rs tr,
    processKeywordsBatch oddCallsFail 7 sevenKeywords 3 = Some (rs, tr)
    /\ rs !! 1%nat = Some (degraded (str "b") (str "timeout"))
    /\ calledKeywords tr = sevenKeywords.
Proof.
  destruct (processKeywordsBatch_failure_isolated oddCallsFail sevenKeywords 3 7)
    as (rs & tr & Hrun & Hdeg & _ & Hcalls & _).
  - lia.
  - vm_compute. lia.
  - exists rs, tr. split; [exact Hrun|]. split; [|exact Hcalls].
    apply Hdeg; reflexivity.
Defined.

(** C10. With [batchSize >= 1] the loop of [processKeywordsBatch] ends
    for every keyword list: it takes one iteration per batch, each
    advancing the index by [batchSize], so any fuel of at least the number
    of batches (in particular the length of the list) yields the result,
    and less fuel does not. The precondition is needed: with
    [batchSize <= 0] and a non-empty list the index never passes the end
    of the list, and no amount of fuel yields a result. *)
Theorem processKeywordsBatch_terminates_iff_width_positive
    (analyzeKeyword : nat -> jsstring -> outcome Analysis.t)
    (keywords : list jsstring) (batchSize : Z) :
  let batches := length (chunks (Z.to_nat batchSize) keywords) in
  (1 <= batchSize ->
   (batches <= length keywords)%nat
   /\ Z.of_nat batches = ceiling (Z.of_nat (length keywords)) batchSize
   /\ (forall fuel,
         (batches <= fuel)%nat ->
         exists r,
           processKeywordsBatch analyzeKeyword fuel keywords batchSize = Some r)
   /\ (forall fuel,
         (fuel < batches)%nat ->
         processKeywordsBatch analyzeKeyword fuel keywords batchSize = None))
  /\ (batchSize <= 0 -> keywords <> [] ->
      forall fuel,
        processKeywordsBatch analyzeKeyword fuel keywords batchSize = None).
Proof.
  intros batches. split.
  - intros Hw. split; [apply chunks_count_le; lia|].
    split; [|split].
    + unfold batches. rewrite chunks_length by lia. f_equal. lia.
    + intros fuel Hfuel. eexists.
      apply processKeywordsBatch_spec; assumption.
    + intros fuel Hfuel. unfold processKeywordsBatch.
      pose proof (batchLoop_short_of_fuel analyzeKeyword (Z.to_nat batchSize)
                    keywords ltac:(lia) fuel keywords []
                    {| results := []; calls := 0; trace := [] |}
                    eq_refl Hfuel) as H.
      rewrite Z2Nat.id in H by lia.
      change (Z.of_nat (length (@nil jsstring))) with 0 in H.
      rewrite H. reflexivity.
  - intros Hw Hne fuel. unfold processKeywordsBatch.
    rewrite batchLoop_diverges; [reflexivity | assumption.. | lia].
Qed.

Lemma processKeywordsBatch_terminates_iff_width_positive_witness :
  (exists r, processKeywordsBatch oddCallsFail 3 sevenKeywords 3 = Some r)
  /\ processKeywordsBatch oddCallsFail 2 sevenKeywords 3 = None
  /\ processKeywordsBatch oddCallsFail 1000 sevenKeywords 0 = None
  /\ processKeywordsBatch oddCallsFail 1000 sevenKeywords (-2) = None.
Proof.
  split; [|split; [|split]].
  - apply (proj1 (processKeywordsBatch_terminates_iff_width_positive
                    oddCallsFail sevenKeywords 3)); [lia | vm_compute; lia].
  - apply (proj1 (processKeywordsBatch_terminates_iff_width_positive
                    oddCallsFail sevenKeywords 3)); [lia | vm_compute; lia].
  - apply (proj2 (processKeywordsBatch_terminates_iff_width_positive
                    oddCallsFail sevenKeywords 0)); [lia | discriminate].
  - apply (proj2 (processKeywordsBatch_terminates_iff_width_positive
                    oddCallsFail sevenKeywords (-2))); [lia | discriminate].
Defined.

(* ===================================================================== *)
(** ** [Array.prototype.sort] with a consistent comparator *)
(* ===================================================================== *)

Section SortFacts.

Context {A : Type} (comparefn : A -> A -> Z).

(** What makes the comparator consistent. *)
Hypothesis comparefn_total : forall a b, 0 < comparefn a b -> comparefn b a <= 0.
Hypothesis comparefn_trans :
  forall a b c,
    notAfter comparefn a b -> notAfter comparefn b c -> notAfter comparefn a c.

Lemma sortInsert_perm (x : A) (l : list A) :
  Permutation (sortInsert comparefn x l) (x :: l).
Proof.
  induction l as [|y l IH]; simpl; [reflexivity|].
  destruct (comparefn x y <=? 0); [reflexivity|].
  rewrite IH. apply perm_swap.
Qed.

Lemma sort_perm (l : list A) : Permutation (sort comparefn l) l.
Proof.
  induction l as [|x l IH]; simpl; [reflexivity|].
  rewrite sortInsert_perm, IH. reflexivity.
Qed.

Lemma sortInsert_sorted (x : A) (l : list A) :
  StronglySorted (notAfter comparefn) l ->
  StronglySorted (notAfter comparefn) (sortInsert comparefn x l).
Proof.
  induction 1 as [|y l Hs IH Hy]; simpl.
  - constructor; constructor.
  - destruct (Z.leb_spec (comparefn x y) 0) as [Hle | Hgt].
    + constructor; [constructor; assumption|].
      constructor; [assumption|].
      eapply Forall_impl; [exact Hy|].
      intros z Hz. eapply comparefn_trans; eassumption.
    + constructor; [assumption|].
      rewrite sortInsert_perm. constructor; [|assumption].
      apply comparefn_total. assumption.
Qed.

Lemma sort_sorted (l : list A) :
  StronglySorted (notAfter comparefn) (sort comparefn l).
Proof.
  induction l as [|x l IH]; simpl; [constructor|].
  apply sortInsert_sorted. assumption.
Qed.

(** Stability: the elements of a class whose members all compare as
    equal keep their order. *)
Lemma sortInsert_stable (P : A -> bool) (x : A) (l : list A) :
  (forall a b, P a = true -> P b = true -> comparefn a b <= 0) ->
  List.filter P (sortInsert comparefn x l) = List.filter P (x :: l).
Proof.
  intros HP. induction l as [|y l IH]; [reflexivity|].
  cbn [sortInsert].
  destruct (Z.leb_spec (comparefn x y) 0) as [Hle | Hgt]; [reflexivity|].
  cbn [List.filter] in *. rewrite IH.
  destruct (P x) eqn:Hx, (P y) eqn:Hy; try reflexivity.
  specialize (HP x y Hx Hy). lia.
Qed.

Lemma sort_stable (P : A -> bool) (l : list A) :
  (forall a b, P a = true -> P b = true -> comparefn a b <= 0) ->
  List.filter P (sort comparefn l) = List.filter P l.
Proof.
  intros HP. induction l as [|x l IH]; [reflexivity|].
  cbn [sort]. rewrite sortInsert_stable by assumption.
  cbn [List.filter]. rewrite IH. reflexivity.
Qed.

(** A sorted array is left as it is. *)
Lemma sort_sorted_id (l : list A) :
  StronglySorted (notAfter comparefn) l -> sort comparefn l = l.
Proof.
  induction 1 as [|x l Hs IH Hx]; [reflexivity|].
  cbn [sort]. rewrite IH.
  destruct Hx as [|y l' Hy Hl']; [reflexivity|].
  cbn [sortInsert]. unfold notAfter in Hy.
  rewrite (proj2 (Z.leb_le _ _)) by assumption. reflexivity.
Qed.

Lemma tied_refl (a : A) : tied comparefn a a = true.
Proof.
  unfold tied. pose proof (comparefn_total a a).
  rewrite (proj2 (Z.leb_le _ _)) by lia. reflexivity.
Qed.

Lemma tied_sym (a b : A) : tied comparefn a b = tied comparefn b a.
Proof. unfold tied. apply andb_comm. Qed.

Lemma tied_spec (a b : A) :
  tied comparefn a b = true <-> notAfter comparefn a b /\ notAfter comparefn b a.
Proof. unfold tied, notAfter. rewrite andb_true_iff, !Z.leb_le. reflexivity. Qed.

Lemma sort_stable_tied (a : A) (l : list A) :
  List.filter (tied comparefn a) (sort comparefn l)
  = List.filter (tied comparefn a) l.
Proof.
  apply sort_stable. intros b c Hb%tied_spec Hc%tied_spec.
  apply (comparefn_trans b a c); tauto.
Qed.

(** The standard leaves the engine no choice: two sorted lists in which
    the elements tied with any given element appear in the same order are
    the same list. *)
Lemma sorted_stable_unique (l1 l2 : list A) :
  StronglySorted (notAfter comparefn) l1 ->
  StronglySorted (notAfter comparefn) l2 ->
  (forall a, List.filter (tied comparefn a) l1 = List.filter (tied comparefn a) l2) ->
  l1 = l2.
Proof.
  intros H1. revert l2.
  induction H1 as [|x l1 Hs1 IH Hx]; intros l2 H2 Hf.
  - destruct l2 as [|y l2]; [reflexivity|].
    specialize (Hf y). cbn [List.filter] in Hf.
    rewrite tied_refl in Hf. discriminate.
  - destruct l2 as [|y l2].
    { specialize (Hf x). cbn [List.filter] in Hf.
      rewrite tied_refl in Hf. discriminate. }
    inversion H2 as [|? ? Hs2 Hy]; subst.
    assert (x = y) as <-.
    { pose proof (Hf x) as Hfx. pose proof (Hf y) as Hfy.
      cbn [List.filter] in Hfx, Hfy.
      rewrite tied_refl in Hfx, Hfy.
      destruct (tied comparefn x y) eqn:Hxy; [congruence|].
      rewrite tied_sym, Hxy in Hfy.
      assert (In y l1) as Hin1.
      { apply (proj1 (filter_In (tied comparefn y) y l1)).
        rewrite Hfy. left. reflexivity. }
      assert (In x l2) as Hin2.
      { apply (proj1 (filter_In (tied comparefn x) x l2)).
        rewrite <- Hfx. left. reflexivity. }
      assert (tied comparefn x y = true); [|congruence].
      apply tied_spec. split.
      - exact (proj1 (List.Forall_forall _ _) Hx y Hin1).
      - exact (proj1 (List.Forall_forall _ _) Hy x Hin2). }
    f_equal. apply IH; [assumption|].
    intros a. specialize (Hf a). cbn [List.filter] in Hf.
    destruct (tied comparefn a x); congruence.
Qed.

Lemma sort_unique (l l' : list A) :
  StronglySorted (notAfter comparefn) l' ->
  (forall a, List.filter (tied comparefn a) l' = List.filter (tied comparefn a) l) ->
  l' = sort comparefn l.
Proof.
  intros Hs Hst. apply sorted_stable_unique; [assumption | apply sort_sorted |].
  intros a. rewrite sort_stable_tied. apply Hst.
Qed.

Lemma sort_map {B : Type} (f : B -> A) (l : list B) :
  List.map f (sort (fun x y => comparefn (f x) (f y)) l) =
    sort comparefn (List.map f l).
Proof.
  induction l as [|x l IH]; [reflexivity|].
  cbn [sort List.map]. rewrite <- IH.
  generalize (sort (fun x y => comparefn (f x) (f y)) l). intros s.
  induction s as [|y s IHs]; [reflexivity|].
  cbn [sortInsert List.map].
  destruct (comparefn (f x) (f y) <=? 0); [reflexivity|].
  cbn [List.map]. rewrite IHs. reflexivity.
Qed.

End SortFacts.

(* ===================================================================== *)
(** ** The result ranker *)
(* ===================================================================== *)

Lemma compareResults_spec (a b : KeywordResult) :
  compareResults a b <= 0 <-> rankedBefore a b.
Proof.
  unfold compareResults, rankedBefore.
  destruct (Z.eqb_spec (trafficScore b) (trafficScore a)); simpl; lia.
Qed.

Lemma compareResults_total (a b : KeywordResult) :
  0 < compareResults a b -> compareResults b a <= 0.
Proof.
  unfold compareResults.
  destruct (Z.eqb_spec (trafficScore b) (trafficScore a)),
           (Z.eqb_spec (trafficScore a) (trafficScore b)); simpl; lia.
Qed.

Lemma compareResults_trans (a b c : KeywordResult) :
  notAfter compareResults a b -> notAfter compareResults b c ->
  notAfter compareResults a c.
Proof.
  unfold notAfter. rewrite !compareResults_spec. unfold rankedBefore. lia.
Qed.

Lemma compareResults_sameKeys (r a b : KeywordResult) :
  sameKeys r a = true -> sameKeys r b = true -> compareResults a b <= 0.
Proof.
  unfold sameKeys. rewrite !andb_true_iff, !Z.eqb_eq.
  intros [H1 H2] [H3 H4]. apply compareResults_spec. unfold rankedBefore. lia.
Qed.

Lemma rankedBefore_sorted (rs : list KeywordResult) :
  StronglySorted rankedBefore rs <->
  StronglySorted (notAfter compareResults) rs.
Proof.
  split; induction 1 as [|x l Hs IH Hx]; constructor; try assumption;
    (eapply Forall_impl; [exact Hx|]); intros y Hy;
    apply compareResults_spec; assumption.
Qed.

Lemma rankResults_StronglySorted (rs : list KeywordResult) :
  StronglySorted rankedBefore (rankResults rs).
Proof.
  apply rankedBefore_sorted, sort_sorted.
  - apply compareResults_total.
  - apply compareResults_trans.
Qed.

Lemma StronglySorted_lookup_lt {A : Type} (R : A -> A -> Prop) (l : list A) :
  StronglySorted R l ->
  forall i j a b, (i < j)%nat -> l !! i = Some a -> l !! j = Some b -> R a b.
Proof.
  induction 1 as [|x l Hs IH Hx]; intros i j a b Hij Ha Hb;
    [destruct i; discriminate|].
  destruct j as [|j]; [lia|]. destruct i as [|i]; simpl in Ha, Hb.
  - injection Ha as <-.
    apply (proj1 (List.Forall_forall _ _) Hx).
    apply list_elem_of_In. eapply list_elem_of_lookup_2. eassumption.
  - apply (IH i j); [lia | assumption..].
Qed.

(** C4. The ranker returns the results it was given (a permutation of
    them) in an order in which, of any two results, the earlier one has
    the higher trafficScore or, at equal trafficScore, a difficultyScore
    that is not higher. The inputs a(50/30), b(70/10), c(50/20) rank as
    b, c, a. *)
Theorem rankResults_sorted (rs : list KeywordResult) :
  Permutation (rankResults rs) rs
  /\ StronglySorted rankedBefore (rankResults rs)
  /\ (forall i j a b,
        (i < j)%nat ->
        rankResults rs !! i = Some a -> rankResults rs !! j = Some b ->
        trafficScore a > trafficScore b
        \/ (trafficScore a = trafficScore b
            /\ difficultyScore a <= difficultyScore b))
  /\ rankResults [result "a" 50 30; result "b" 70 10; result "c" 50 20]
     = [result "b" 70 10; result "c" 50 20; result "a" 50 30].
Proof.
  pose proof (rankResults_StronglySorted rs) as Hs.
  split; [apply sort_perm|]. split; [exact Hs|]. split; [|reflexivity].
  intros i j a b Hij Ha Hb.
  exact (StronglySorted_lookup_lt rankedBefore _ Hs i j a b Hij Ha Hb).
Qed.

Lemma rankResults_sorted_witness :
  trafficScore (result "c" 50 20) > trafficScore (result "a" 50 30)
  \/ (trafficScore (result "c" 50 20) = trafficScore (result "a" 50 30)
      /\ difficultyScore (result "c" 50 20) <= difficultyScore (result "a" 50 30)).
Proof.
  apply (proj1 (proj2 (proj2 (rankResults_sorted
           [result "a" 50 30; result "b" 70 10; result "c" 50 20])))
           1%nat 2%nat).
  - lia.
  - reflexivity.
  - reflexivity.
Defined.

(** C5. The ranker is stable: the results tied with any given result on
    both trafficScore and difficultyScore come out in the order they came
    in. It is idempotent: a sequence that is already in rank order is
    returned as it is, and so ranking twice is ranking once. *)
Theorem rankResults_stable_idempotent (rs : list KeywordResult) :
  (forall r, List.filter (sameKeys r) (rankResults rs)
             = List.filter (sameKeys r) rs)
  /\ (StronglySorted rankedBefore rs -> rankResults rs = rs)
  /\ rankResults (rankResults rs) = rankResults rs.
Proof.
  assert (forall l, StronglySorted rankedBefore l -> rankResults l = l) as Hid.
  { intros l Hl. apply sort_sorted_id, rankedBefore_sorted, Hl. }
  split; [|split].
  - intros r. apply sort_stable. apply compareResults_sameKeys.
  - apply Hid.
  - apply Hid. apply rankResults_StronglySorted.
Qed.

Lemma rankResults_stable_idempotent_witness :
  rankResults [result "b" 70 10; result "x" 50 20; result "y" 50 20;
               result "a" 50 30]
  = [result "b" 70 10; result "x" 50 20; result "y" 50 20; result "a" 50 30].
Proof.
  apply (proj1 (proj2 (rankResults_stable_idempotent
           [result "b" 70 10; result "x" 50 20; result "y" 50 20;
            result "a" 50 30]))).
  repeat constructor; unfold rankedBefore; simpl; lia.
Defined.

(** *** The ranking step on the heap *)

(** C6, as the claim has it, fails: [results.sort] reorders the very
    array it is applied to and evaluates to that array. On an array
    holding a(50/30), b(70/10), the array holds b, a afterwards, and the
    value returned is the reference that was passed in, which was
    allocated before the call. *)
Lemma sortResults_mutates_its_input :
  exists h',
    Store.sortResults twoResults 1%positive = Some (h', 1%positive)
    /\ Store.contents twoResults 1%positive
         = Some [result "a" 50 30; result "b" 70 10]
    /\ Store.contents h' 1%positive
         = Some [result "b" 70 10; result "a" 50 30]
    /\ Store.arrays h' !! 1%positive <> Store.arrays twoResults !! 1%positive
    /\ is_Some (Store.arrays twoResults !! 1%positive).
Proof.
  eexists. split; [reflexivity|].
  split; [reflexivity|]. split; [reflexivity|].
  split; [discriminate | eexists; reflexivity].
Qed.

(** C6, amended. The ranker sorts the array of results in place and
    returns that same array: afterwards the array holds the references it
    held before, in rank order (its contents are [rankResults] of its
    former contents); no result object is changed, and no other array is
    touched. *)
Theorem sortResults_in_place (h h' : Store.heap) (a r : Store.ref) :
  Store.sortResults h a = Some (h', r) ->
  r = a
  /\ Store.objects h' = Store.objects h
  /\ (forall b, b <> a -> Store.arrays h' !! b = Store.arrays h !! b)
  /\ (exists before after,
        Store.arrays h !! a = Some before
        /\ Store.arrays h' !! a = Some after
        /\ Permutation after before)
  /\ Store.contents h' a = rankResults <$> Store.contents h a.
Proof.
  unfold Store.sortResults.
  destruct (Store.arrays h !! a) as [elems|] eqn:Ha; [|discriminate].
  intros [= <- <-]. split; [reflexivity|]. split; [reflexivity|].
  split; [|split].
  - intros b Hb. cbn. apply lookup_insert_ne. congruence.
  - eexists. eexists. split; [reflexivity|]. split.
    + cbn. apply lookup_insert_eq.
    + apply sort_perm.
  - unfold Store.contents. cbn. rewrite lookup_insert_eq, Ha. cbn.
    f_equal. unfold Store.deref. cbn.
    apply (sort_map compareResults).
Qed.

Lemma sortResults_in_place_witness :
  Store.contents
    {| Store.objects := Store.objects twoResults;
       Store.arrays := <[1%positive := [11%positive; 10%positive]]>
                         (Store.arrays twoResults) |} 1%positive
  = rankResults <$> Store.contents twoResults 1%positive.
Proof.
  apply (sortResults_in_place twoResults _ 1%positive 1%positive).
  reflexivity.
Defined.

(* ===================================================================== *)
(** ** The command line: the concurrency argument *)
(* ===================================================================== *)

(** A concurrency argument that [parseInt] reads as a non-zero number
    outside [1..20] ends the process with exit code 1 before
    [searchKeywords] is called: no scorer call is made. *)
Lemma cli_rejects_out_of_range
    (analyzeKeyword : nat -> jsstring -> outcome Analysis.t) (fuel : nat)
    (keywordsString arg2 : jsstring) (more : list jsstring) (n : Z) :
  keywordsString <> [] ->
  parseInt arg2 None = Some n ->
  n <> 0 -> n < 1 \/ 20 < n ->
  cli (str "-search" :: keywordsString :: arg2 :: more)
    = Exit 1 (str "Concurrency must be between 1 and 20")
  /\ cliScorerCalls analyzeKeyword fuel
       (str "-search" :: keywordsString :: arg2 :: more) = Some [].
Proof.
  intros Hk Hparse Hn0 Hrange.
  assert (cli (str "-search" :: keywordsString :: arg2 :: more)
          = Exit 1 (str "Concurrency must be between 1 and 20")) as Hcli.
  { unfold cli. rewrite bool_decide_eq_true_2 by reflexivity.
    change ((str "-search" :: keywordsString :: arg2 :: more) !! 1%nat)
      with (Some keywordsString).
    change ((str "-search" :: keywordsString :: arg2 :: more) !! 2%nat)
      with (Some arg2).
    destruct keywordsString; [congruence|].
    unfold parseIntArg. cbn [default from_option id]. rewrite Hparse.
    unfold orElse.
    rewrite (proj2 (Z.eqb_neq n 0)) by assumption.
    destruct (Z.ltb_spec n 1), (Z.ltb_spec 20 n); try reflexivity; lia. }
  split; [exact Hcli|]. unfold cliScorerCalls. rewrite Hcli. reflexivity.
Qed.

Example cli_rejects_25 :
  cli [str "-search"; str "a,b"; str "25"]
    = Exit 1 (str "Concurrency must be between 1 and 20")
  /\ cliScorerCalls oddCallsFail 5 [str "-search"; str "a,b"; str "25"]
     = Some [].
Proof. split; reflexivity. Qed.

(** C7, where the code departs from it. The concurrency argument "0" is
    not rejected: [parseInt("0") || 3] is 3, so the range check sees 3,
    the search runs with a width of 3 and the scorer is called. *)
Theorem cli_concurrency_zero_is_not_rejected :
  cli [str "-search"; str "a,b"; str "0"] = Search (str "a,b") 3
  /\ cliScorerCalls oddCallsFail 5 [str "-search"; str "a,b"; str "0"]
     = Some [LogBatch (Some 1) (Some 1) 2;
             CallAnalyzeKeyword 0 (str "a");
             CallAnalyzeKeyword 1 (str "b")].
Proof. split; reflexivity. Qed.

(* ===================================================================== *)
(** ** The keyword list normalizer *)
(* ===================================================================== *)

Lemma split_cons_nonempty (sep : N) (s : jsstring) : split sep s <> [].
Proof.
  destruct s as [|c s]; simpl; [discriminate|].
  destruct (c =? sep)%N; [discriminate|].
  destruct (split sep s); discriminate.
Qed.

(** [split] cuts at the separators and only there: joining the pieces
    with the separator gives the string back, and no piece contains the
    separator. *)
Lemma split_join (sep : N) (s : jsstring) :
  join sep (split sep s) = s
  /\ Forall (fun p => ~ In sep p) (split sep s).
Proof.
  induction s as [|c s [IHj IHf]]; simpl.
  - split; [reflexivity|]. constructor; [|constructor]. intros [].
  - destruct (N.eqb_spec c sep) as [-> | Hne].
    + split.
      * pose proof (split_cons_nonempty sep s).
        cbn [join]. destruct (split sep s); [congruence|].
        rewrite IHj. reflexivity.
      * constructor; [intros [] | assumption].
    + pose proof (split_cons_nonempty sep s).
      destruct (split sep s) as [|p ps]; [congruence|].
      split.
      * cbn [join] in *. destruct ps; rewrite <- IHj; reflexivity.
      * inversion IHf; subst. constructor; [|assumption].
        intros [-> | Hin]; [congruence | contradiction].
Qed.

Lemma trimStart_head (s : jsstring) (c : N) :
  head (trimStart s) = Some c -> isWhiteSpace c = false.
Proof.
  induction s as [|d s IH]; simpl; [discriminate|].
  destruct (isWhiteSpace d) eqn:Hd; [assumption|].
  simpl. intros [= <-]. assumption.
Qed.

Lemma trimEnd_last (s : jsstring) (c : N) :
  last (trimEnd s) = Some c -> isWhiteSpace c = false.
Proof.
  induction s as [|d s IH]; simpl; [discriminate|].
  destruct (trimEnd s) as [|y t].
  - destruct (isWhiteSpace d) eqn:Hd; [discriminate|].
    simpl. intros [= <-]. assumption.
  - intros H. apply IH. exact H.
Qed.

Lemma trimEnd_head (s : jsstring) (c : N) :
  head (trimEnd s) = Some c -> head s = Some c.
Proof.
  destruct s as [|d s]; simpl; [discriminate|].
  destruct (trimEnd s); [destruct (isWhiteSpace d)|]; simpl; congruence.
Qed.

Lemma trimStart_suffix (s : jsstring) :
  exists pre, s = pre ++ trimStart s /\ forallb isWhiteSpace pre = true.
Proof.
  induction s as [|d s (pre & Hs & Hpre)]; simpl.
  - exists []. split; reflexivity.
  - destruct (isWhiteSpace d) eqn:Hd.
    + exists (d :: pre). simpl. rewrite Hd, Hpre, <- Hs. split; reflexivity.
    + exists []. split; reflexivity.
Qed.

Lemma trimEnd_prefix (s : jsstring) :
  exists post, s = trimEnd s ++ post /\ forallb isWhiteSpace post = true.
Proof.
  induction s as [|d s (post & Hs & Hpost)]; simpl.
  - exists []. split; reflexivity.
  - destruct (trimEnd s) as [|y t] eqn:Ht.
    + destruct (isWhiteSpace d) eqn:Hd.
      * exists (d :: post). simpl in *. rewrite Hd, Hpost, <- Hs.
        split; reflexivity.
      * exists post. simpl in Hs. subst s. split; [reflexivity | assumption].
    + exists post. split; [|assumption].
      change ((d :: y :: t) ++ post) with (d :: (y :: t) ++ post).
      rewrite <- Hs. reflexivity.
Qed.

(** [trim] removes a run of whitespace at either end, and all of it. *)
Lemma trim_spec (s : jsstring) :
  (exists pre post,
      s = pre ++ trim s ++ post
      /\ forallb isWhiteSpace pre = true
      /\ forallb isWhiteSpace post = true)
  /\ trimmed (trim s).
Proof.
  split.
  - destruct (trimStart_suffix s) as (pre & Hs & Hpre).
    destruct (trimEnd_prefix (trimStart s)) as (post & Ht & Hpost).
    exists pre, post. unfold trim. rewrite <- Ht. auto.
  - unfold trimmed, trim. split; intros c Hc.
    + apply (trimStart_head s). apply trimEnd_head. assumption.
    + apply (trimEnd_last (trimStart s)). assumption.
Qed.

Lemma trim_nil_iff (s : jsstring) :
  trim s = [] <-> allWhiteSpace s = true.
Proof.
  unfold allWhiteSpace.
  destruct (trim_spec s) as [(pre & post & Hs & Hpre & Hpost) [Hhead _]].
  split.
  - intros Hnil. rewrite Hnil in Hs. subst s.
    rewrite forallb_app, Hpre. assumption.
  - intros Hall. destruct (trim s) as [|c t]; [reflexivity|].
    specialize (Hhead c eq_refl).
    rewrite Hs, !forallb_app in Hall. simpl in Hall. rewrite Hhead in Hall.
    rewrite andb_false_r in Hall. discriminate.
Qed.

Lemma filter_map_swap {A B : Type} (f : A -> B) (P : B -> bool) (l : list A) :
  List.filter P (List.map f l) = List.map f (List.filter (fun x => P (f x)) l).
Proof.
  induction l as [|x l IH]; simpl; [reflexivity|].
  destruct (P (f x)); simpl; rewrite IH; reflexivity.
Qed.

(** C8. The normalizer cuts the string at its commas (the pieces joined
    by commas are the string, and no piece contains a comma), trims each
    piece and drops the pieces that are empty after trimming: the result
    is the trimmed pieces that are not whitespace only, in their order and
    with duplicates kept, as many as there are such pieces; none of them
    is empty or begins or ends with whitespace. " a, b ,, c " yields
    a, b, c. When nothing remains, the result is the empty sequence and
    [searchKeywords] returns an empty result at once, without a call of
    the scorer. *)
Theorem normalizeKeywords_spec (keywordsString : jsstring) :
  let pieces := split 44 keywordsString in
  join 44 pieces = keywordsString
  /\ Forall (fun p => ~ In 44%N p) pieces
  /\ normalizeKeywords keywordsString
     = List.map trim (List.filter (fun p => negb (allWhiteSpace p)) pieces)
  /\ length (normalizeKeywords keywordsString)
     = length (List.filter (fun p => negb (allWhiteSpace p)) pieces)
  /\ Forall (fun k => k <> [] /\ trimmed k) (normalizeKeywords keywordsString)
  /\ normalizeKeywords (str " a, b ,, c ") = [str "a"; str "b"; str "c"]
  /\ normalizeKeywords (str "a,b,a") = [str "a"; str "b"; str "a"]
  /\ (normalizeKeywords keywordsString = [] ->
      forall analyzeKeyword fuel concurrency,
        searchKeywords analyzeKeyword fuel keywordsString concurrency
        = Some ([], [ErrorNoValidKeywords])).
Proof.
  intros pieces.
  assert (normalizeKeywords keywordsString
          = List.map trim (List.filter (fun p => negb (allWhiteSpace p)) pieces))
    as Hnorm.
  { unfold normalizeKeywords. fold pieces. rewrite filter_map_swap. f_equal.
    apply List.filter_ext. intros p.
    destruct (allWhiteSpace p) eqn:Hp.
    - apply trim_nil_iff in Hp. rewrite Hp. reflexivity.
    - destruct (trim p) eqn:Ht; [|reflexivity].
      apply trim_nil_iff in Ht. congruence. }
  destruct (split_join 44 keywordsString) as [Hjoin Hcomma].
  split; [exact Hjoin|]. split; [exact Hcomma|]. split; [exact Hnorm|].
  split; [rewrite Hnorm; apply length_map|].
  split; [|split; [reflexivity|split; [reflexivity|]]].
  - unfold normalizeKeywords. apply List.Forall_forall. intros k Hk.
    apply filter_In in Hk. destruct Hk as [Hin Hlen].
    apply in_map_iff in Hin. destruct Hin as (p & <- & _).
    split; [|apply trim_spec].
    intros Hnil. rewrite Hnil in Hlen. discriminate.
  - intros Hnil analyzeKeyword fuel concurrency.
    unfold searchKeywords. rewrite Hnil. reflexivity.
Qed.

Lemma normalizeKeywords_spec_witness :
  searchKeywords oddCallsFail 5 (str " , ,, ") 3
  = Some ([], [ErrorNoValidKeywords]).
Proof.
  apply (proj2 (proj2 (proj2 (proj2 (proj2 (proj2 (proj2
           (normalizeKeywords_spec (str " , ,, "))))))))).
  reflexivity.
Defined.

(* ===================================================================== *)
(** ** Similar-app expansion *)
(* ===================================================================== *)

Section CollectFacts.

Context {AppData : Type}.
Variable getAppData : nat -> Z -> outcome AppData.
Variable getSimilarApps : Z -> outcome (list Collect.SimilarApp).

Lemma scrapeSimilarApps_spec (apps : list Collect.SimilarApp)
    (st : Collect.scrapeState) :
  let st' := Collect.scrapeSimilarApps getAppData apps st in
  Collect.similarAppsData st'
    = Collect.similarAppsData st ++ Collect.fetched getAppData (Collect.calls st) apps
  /\ Collect.fetchCalls (Collect.trace st')
     = Collect.fetchCalls (Collect.trace st)
         ++ List.combine (seq (Collect.calls st) (length apps))
                         (List.map Collect.id apps)
  /\ Collect.warnings (Collect.trace st')
     = Collect.warnings (Collect.trace st)
         ++ Collect.failed getAppData (Collect.calls st) apps.
Proof.
  revert st. induction apps as [|app apps IH]; intros st.
  - simpl. rewrite !app_nil_r. auto.
  - cbn [Collect.scrapeSimilarApps Collect.fetched Collect.failed].
    destruct (getAppData (Collect.calls st) (Collect.id app)) as [d|m];
      match goal with |- context [Collect.scrapeSimilarApps _ _ ?s] =>
        destruct (IH s) as (H1 & H2 & H3) end;
      cbn zeta; rewrite H1, H2, H3; cbn [Collect.similarAppsData
        Collect.calls Collect.trace];
      unfold Collect.fetchCalls, Collect.warnings;
      rewrite !omap_app, <- !app_assoc; auto.
Qed.

Lemma fetched_failed_length (n : nat) (apps : list Collect.SimilarApp) :
  (length (Collect.fetched getAppData n apps)
   + length (Collect.failed getAppData n apps) = length apps)%nat.
Proof.
  revert n. induction apps as [|app apps IH]; intros n; [reflexivity|].
  simpl. specialize (IH (S n)).
  destruct (getAppData n (Collect.id app)); simpl; lia.
Qed.

End CollectFacts.

(** C9. When the app id is valid and the fetches of the primary app and
    of the list of similar apps succeed, [collectAppData] resolves, with
    the primary app's metadata as fetched, whatever happens to the similar
    apps. It fetches the metadata of the first 3 similar apps, every one
    of them and in the order of the list, after the primary app's own
    fetch. The similar apps of the result are those whose fetch succeeded,
    in that order; each failure is logged with the app's id and the
    error's message, and its app is left out. So the result has as many
    similar apps as there were apps to fetch, less the failures: 3 at
    most, and 2 when one of three fetches fails. *)
Theorem collectAppData_similar_apps {AppData : Type}
    (getAppData : nat -> Z -> outcome AppData)
    (getSimilarApps : Z -> outcome (list Collect.SimilarApp))
    (appId : jsstring) (numericAppId : Z) (main : AppData)
    (allSimilarApps : list Collect.SimilarApp) :
  parseInt appId (Some 10) = Some numericAppId ->
  0 < numericAppId ->
  getAppData 0%nat numericAppId = Resolved main ->
  getSimilarApps numericAppId = Resolved allSimilarApps ->
  let top3 := take 3 allSimilarApps in
  exists similar tr,
    Collect.collectAppData getAppData getSimilarApps appId
      = (Resolved {| Collect.appData := main;
                     Collect.similarApps := similar;
                     Collect.numericAppId := numericAppId |}, tr)
    /\ similar = Collect.fetched getAppData 1 top3
    /\ Collect.fetchCalls tr
       = (0%nat, numericAppId)
           :: List.combine (seq 1 (length top3)) (List.map Collect.id top3)
    /\ Collect.warnings tr = Collect.failed getAppData 1 top3
    /\ (length similar + length (Collect.warnings tr) = length top3)%nat
    /\ (length similar <= 3)%nat
    /\ ((3 <= length allSimilarApps)%nat ->
        length (Collect.warnings tr) = 1%nat -> length similar = 2%nat).
Proof.
  intros Hparse Hpos Hmain Hsimilar top3.
  unfold Collect.collectAppData.
  rewrite Hparse, (proj2 (Z.leb_gt _ _)) by lia.
  rewrite Hmain, Hsimilar.
  change 3 with (Z.of_nat 3). rewrite slice_prefix. fold top3.
  match goal with |- context [Collect.scrapeSimilarApps _ _ ?s] =>
    destruct (scrapeSimilarApps_spec getAppData top3 s) as (H1 & H2 & H3)
  end.
  cbn zeta in H1, H2, H3.
  cbn [Collect.similarAppsData Collect.calls Collect.trace app] in H1, H2, H3.
  change (Collect.warnings [Collect.GetAppData 0 numericAppId;
                            Collect.GetSimilarApps numericAppId])
    with (@nil (Z * jsstring)) in H3.
  change (Collect.fetchCalls [Collect.GetAppData 0 numericAppId;
                              Collect.GetSimilarApps numericAppId])
    with [(0%nat, numericAppId)] in H2.
  cbn [app] in H2, H3.
  eexists. eexists. split; [reflexivity|].
  pose proof (fetched_failed_length getAppData 1 top3) as Hlen.
  assert (length top3 <= 3)%nat as Htop
    by (unfold top3; rewrite length_take; lia).
  rewrite H1, H2, H3.
  split; [reflexivity|]. split; [reflexivity|]. split; [reflexivity|].
  split; [exact Hlen|]. split; [lia|].
  intros Hall Hone.
  assert (length top3 = 3%nat)
    by (unfold top3; rewrite length_take; lia).
  lia.
Qed.

Lemma collectAppData_similar_apps_witness :
  exists tr,
    Collect.collectAppData secondSimilarFails fourSimilarApps (str "310633997")
      = (Resolved {| Collect.appData := 3106339970;
                     Collect.similarApps := [1010; 1030];
                     Collect.numericAppId := 310633997 |}, tr)
    /\ Collect.fetchCalls tr
       = [(0%nat, 310633997); (1%nat, 101); (2%nat, 102); (3%nat, 103)]
    /\ Collect.warnings tr = [(102, str "not found")].
Proof.
  destruct (collectAppData_similar_apps secondSimilarFails fourSimilarApps
              (str "310633997") 310633997 3106339970
              [ {| Collect.id := 101 |}; {| Collect.id := 102 |};
                {| Collect.id := 103 |}; {| Collect.id := 104 |} ])
    as (similar & tr & Hrun & Hsim & Hcalls & Hwarn & _).
  - reflexivity.
  - lia.
  - reflexivity.
  - reflexivity.
  - exists tr. subst similar. split; [exact Hrun|].
    split; [exact Hcalls | exact Hwarn].
Defined.

(* ===================================================================== *)
(** ** [searchKeywords] as a whole *)
(* ===================================================================== *)

Lemma analyzeBatch_failed_traffic
    (analyzeKeyword : nat -> jsstring -> outcome Analysis.t)
    (n : nat) (keywords : list jsstring) :
  Forall (fun r => error r <> None -> trafficScore r = 0)
         (analyzeBatch analyzeKeyword n keywords).
Proof.
  revert n. induction keywords as [|k ks IH]; intros n; simpl; constructor;
    [|apply IH].
  unfold analyzeKeywordParallel.
  destruct (analyzeKeyword n k); simpl; congruence.
Qed.

Lemma searchKeywords_run
    (analyzeKeyword : nat -> jsstring -> outcome Analysis.t)
    (keywordsString : jsstring) (concurrency : Z) (fuel : nat) :
  1 <= concurrency ->
  (length (normalizeKeywords keywordsString) <= fuel)%nat ->
  exists tr,
    searchKeywords analyzeKeyword fuel keywordsString concurrency
      = Some (rankResults
                (analyzeBatch analyzeKeyword 0 (normalizeKeywords keywordsString)),
              tr)
    /\ calledKeywords tr = normalizeKeywords keywordsString.
Proof.
  intros Hw Hfuel. unfold searchKeywords.
  destruct (normalizeKeywords keywordsString) as [|k ks] eqn:Hks.
  - eexists. split; reflexivity.
  - cbn [length Nat.eqb].
    rewrite processKeywordsBatch_spec;
      [| assumption
       | etransitivity; [apply chunks_count_le; lia | assumption]].
    eexists. split; [reflexivity|].
    rewrite calledKeywords_batchesTrace. apply chunks_concat. lia.
Qed.

(** X1. With a width of at least one, [searchKeywords] returns one result
    per normalized keyword: the results of the calls for the normalized
    keywords, rearranged into rank order; and the scorer is asked exactly
    the normalized keywords, in their order. *)
Theorem searchKeywords_results
    (analyzeKeyword : nat -> jsstring -> outcome Analysis.t)
    (keywordsString : jsstring) (concurrency : Z) (fuel : nat) :
  1 <= concurrency ->
  (length (normalizeKeywords keywordsString) <= fuel)%nat ->
  exists rs tr,
    searchKeywords analyzeKeyword fuel keywordsString concurrency = Some (rs, tr)
    /\ Permutation rs
         (analyzeBatch analyzeKeyword 0 (normalizeKeywords keywordsString))
    /\ length rs = length (normalizeKeywords keywordsString)
    /\ StronglySorted rankedBefore rs
    /\ calledKeywords tr = normalizeKeywords keywordsString.
Proof.
  intros Hw Hfuel.
  destruct (searchKeywords_run analyzeKeyword keywordsString concurrency fuel
              Hw Hfuel) as (tr & Hrun & Hcalls).
  eexists. exists tr. split; [exact Hrun|].
  split; [apply sort_perm|]. split; [|split].
  - rewrite (Permutation_length (sort_perm compareResults _)).
    apply analyzeBatch_length.
  - apply rankResults_StronglySorted.
  - exact Hcalls.
Qed.

Lemma searchKeywords_results_witness :
  exists rs tr,
    searchKeywords oddCallsFail 3 (str "x, y ,z") 2 = Some (rs, tr)
    /\ length rs = 3%nat
    /\ calledKeywords tr = [str "x"; str "y"; str "z"].
Proof.
  destruct (searchKeywords_results oddCallsFail (str "x, y ,z") 2 3)
    as (rs & tr & Hrun & _ & Hlen & _ & Hcalls).
  - lia.
  - vm_compute. lia.
  - exists rs, tr. split; [exact Hrun|]. split; [exact Hlen | exact Hcalls].
Defined.

(** X2. The results of [searchKeywords] do not depend on the batch
    width: two widths of at least one give the same ranked results for
    the same answers of the scorer (the width only changes the batches
    and delays of the trace). *)
Theorem searchKeywords_width_independent
    (analyzeKeyword : nat -> jsstring -> outcome Analysis.t)
    (keywordsString : jsstring) (c1 c2 : Z) (fuel : nat) :
  1 <= c1 -> 1 <= c2 ->
  (length (normalizeKeywords keywordsString) <= fuel)%nat ->
  exists rs tr1 tr2,
    searchKeywords analyzeKeyword fuel keywordsString c1 = Some (rs, tr1)
    /\ searchKeywords analyzeKeyword fuel keywordsString c2 = Some (rs, tr2)
    /\ calledKeywords tr1 = calledKeywords tr2.
Proof.
  intros H1 H2 Hfuel.
  destruct (searchKeywords_run analyzeKeyword keywordsString c1 fuel H1 Hfuel)
    as (tr1 & Hrun1 & Hc1).
  destruct (searchKeywords_run analyzeKeyword keywordsString c2 fuel H2 Hfuel)
    as (tr2 & Hrun2 & Hc2).
  eexists. exists tr1, tr2. split; [exact Hrun1|]. split; [exact Hrun2|].
  congruence.
Qed.

Lemma searchKeywords_width_independent_witness :
  exists rs tr1 tr2,
    searchKeywords oddCallsFail 3 (str "x, y ,z") 1 = Some (rs, tr1)
    /\ searchKeywords oddCallsFail 3 (str "x, y ,z") 20 = Some (rs, tr2)
    /\ delayCount tr1 = 2%nat /\ delayCount tr2 = 0%nat.
Proof.
  destruct (searchKeywords_width_independent oddCallsFail (str "x, y ,z") 1 20 3)
    as (rs & tr1 & tr2 & Hrun1 & Hrun2 & _).
  - lia.
  - lia.
  - vm_compute. lia.
  - exists rs, tr1, tr2. split; [exact Hrun1|]. split; [exact Hrun2|].
    vm_compute in Hrun1, Hrun2.
    injection Hrun1 as _ <-. injection Hrun2 as _ <-. split; reflexivity.
Defined.

(** X3. In the output of [searchKeywords] a keyword whose analysis failed
    (a result that carries an [error]) never stands before a result with
    a positive trafficScore. *)
Theorem searchKeywords_failures_rank_below_traffic
    (analyzeKeyword : nat -> jsstring -> outcome Analysis.t)
    (keywordsString : jsstring) (concurrency : Z) (fuel : nat)
    (rs : list KeywordResult) (tr : list event)
    (i j : nat) (a b : KeywordResult) :
  1 <= concurrency ->
  (length (normalizeKeywords keywordsString) <= fuel)%nat ->
  searchKeywords analyzeKeyword fuel keywordsString concurrency = Some (rs, tr) ->
  rs !! i = Some a -> rs !! j = Some b ->
  0 < trafficScore a -> error b <> None ->
  (i < j)%nat.
Proof.
  intros Hw Hfuel Hrun Ha Hb Hpos Herr.
  destruct (searchKeywords_run analyzeKeyword keywordsString concurrency fuel
              Hw Hfuel) as (tr' & Hrun' & _).
  rewrite Hrun in Hrun'. injection Hrun' as -> _.
  assert (trafficScore b = 0) as Hb0.
  { pose proof (analyzeBatch_failed_traffic analyzeKeyword 0
                  (normalizeKeywords keywordsString)) as Hall.
    rewrite <- (sort_perm compareResults) in Hall.
    apply (proj1 (List.Forall_forall _ _) Hall b); [|assumption].
    apply list_elem_of_In. eapply list_elem_of_lookup_2. exact Hb. }
  destruct (Nat.lt_trichotomy i j) as [Hlt | [-> | Hgt]]; [assumption | |].
  - rewrite Ha in Hb. injection Hb as ->. lia.
  - pose proof (StronglySorted_lookup_lt rankedBefore _
                  (rankResults_StronglySorted _) j i b a Hgt Hb Ha) as Hr.
    unfold rankedBefore in Hr. lia.
Qed.

Lemma searchKeywords_failures_rank_below_traffic_witness : (0 < 1)%nat.
Proof.
  apply (searchKeywords_failures_rank_below_traffic oddCallsFail
           (str "x, y ,z") 2 3
           (rankResults (analyzeBatch oddCallsFail 0
                           (normalizeKeywords (str "x, y ,z"))))
           [LogBatch (Some 1) (Some 2) 2;
            CallAnalyzeKeyword 0 (str "x"); CallAnalyzeKeyword 1 (str "y");
            Delay 1000; LogBatch (Some 2) (Some 2) 1;
            CallAnalyzeKeyword 2 (str "z")]
           0 1
           {| keyword := str "z"; trafficScore := 2; difficultyScore := 1;
              competitionLevel := str "low"; trafficLevel := str "high";
              recommendation := str "target"; error := None |}
           (degraded (str "y") (str "timeout"))).
  - lia.
  - vm_compute. lia.
  - reflexivity.
  - reflexivity.
  - reflexivity.
  - simpl. lia.
  - discriminate.
Defined.

(* ===================================================================== *)
(** ** The command line and the app id *)
(* ===================================================================== *)





Lemma cli_search_inv (args : list jsstring) (keywordsString : jsstring) (c : Z) :
  cli args = Search keywordsString c ->
  args !! 0%nat = Some (str "-search")
  /\ args !! 1%nat = Some keywordsString
  /\ keywordsString <> []
  /\ c = orElse (parseIntArg (args !! 2%nat)) 3
  /\ 1 <= c <= 20.
Proof.
  unfold cli. destruct args as [|arg0 args']; [discriminate|].
  destruct (bool_decide (arg0 = str "-search")) eqn:Hs.
  - apply bool_decide_eq_true_1 in Hs. subst arg0.
    destruct ((str "-search" :: args') !! 1%nat) as [[|k ks]|] eqn:H1;
      try discriminate.
    set (n := orElse (parseIntArg ((str "-search" :: args') !! 2%nat)) 3).
    destruct (Z.ltb_spec n 1); [discriminate|].
    destruct (Z.ltb_spec 20 n); [discriminate|].
    cbn [orb]. intros [= <- <-].
    repeat split; try reflexivity; try lia. discriminate.
  - destruct (parseInt arg0 (Some 10)) as [n|]; [|discriminate].
    destruct (n <=? 0); discriminate.
Qed.

(** X4. The command line starts a search only for a non-empty keyword
    argument and with a width between 1 and 20 (the third argument as
    [parseInt] reads it, or 3 when that is [NaN] or 0); so every search it
    starts comes to an end, with one result per normalized keyword. *)
Theorem cli_search_is_well_formed_and_terminates
    (analyzeKeyword : nat -> jsstring -> outcome Analysis.t)
    (args : list jsstring) (keywordsString : jsstring) (c : Z) :
  cli args = Search keywordsString c ->
  args !! 0%nat = Some (str "-search")
  /\ args !! 1%nat = Some keywordsString
  /\ keywordsString <> []
  /\ c = orElse (parseIntArg (args !! 2%nat)) 3
  /\ 1 <= c <= 20
  /\ exists rs tr,
       searchKeywords analyzeKeyword (length (normalizeKeywords keywordsString))
                      keywordsString c = Some (rs, tr)
       /\ length rs = length (normalizeKeywords keywordsString).
Proof.
  intros Hcli.
  destruct (cli_search_inv args keywordsString c Hcli)
    as (H0 & H1 & Hne & Hc & Hrange).
  repeat (split; [assumption|]).
  destruct (searchKeywords_run analyzeKeyword keywordsString c
              (length (normalizeKeywords keywordsString)))
    as (tr & Hrun & _); [lia | lia |].
  eexists. exists tr. split; [exact Hrun|].
  rewrite (Permutation_length (sort_perm compareResults _)).
  apply analyzeBatch_length.
Qed.

Lemma cli_search_is_well_formed_and_terminates_witness :
  exists rs tr,
    searchKeywords oddCallsFail 2 (str "a,b") 7 = Some (rs, tr)
    /\ length rs = 2%nat.
Proof.
  destruct (cli_search_is_well_formed_and_terminates oddCallsFail
              [str "-search"; str "a,b"; str "7 at once"] (str "a,b") 7)
    as (_ & _ & _ & _ & _ & rs & tr & Hrun & Hlen).
  - reflexivity.
  - exists rs, tr. split; [exact Hrun | exact Hlen].
Defined.

Section CollectValidation.

Context {AppData : Type}.
Variable getAppData : nat -> Z -> outcome AppData.
Variable getSimilarApps : Z -> outcome (list Collect.SimilarApp).

Lemma scrapeSimilarApps_trace_prefix (apps : list Collect.SimilarApp)
    (st : Collect.scrapeState) :
  exists t,
    Collect.trace (Collect.scrapeSimilarApps getAppData apps st)
    = Collect.trace st ++ t.
Proof.
  revert st. induction apps as [|app apps IH]; intros st.
  - exists []. simpl. rewrite app_nil_r. reflexivity.
  - cbn [Collect.scrapeSimilarApps].
    match goal with |- context [Collect.scrapeSimilarApps _ _ ?s] =>
      destruct (IH s) as [t Ht]; rewrite Ht end.
    destruct (getAppData (Collect.calls st) (Collect.id app));
      cbn [Collect.trace]; rewrite <- app_assoc; eexists; reflexivity.
Qed.

Lemma collectAppData_first_fetch (appId : jsstring) (n : Z) :
  parseInt appId (Some 10) = Some n -> 0 < n ->
  head (snd (Collect.collectAppData getAppData getSimilarApps appId))
  = Some (Collect.GetAppData 0 n).
Proof.
  intros Hparse Hpos. unfold Collect.collectAppData.
  rewrite Hparse, (proj2 (Z.leb_gt _ _)) by lia.
  destruct (getAppData 0%nat n); [|reflexivity].
  destruct (getSimilarApps n); [|reflexivity].
  cbn [snd].
  match goal with |- context [Collect.scrapeSimilarApps _ ?a ?s] =>
    destruct (scrapeSimilarApps_trace_prefix a s) as [t Ht]; rewrite Ht end.
  reflexivity.
Qed.

End CollectValidation.

(** X5. The command line hands an app id to [analyzeApp] only when
    [parseInt(appId, 10)] is a positive number; the check that
    [collectAppData] repeats then passes, and the first thing it does is
    to fetch the app with that number. *)
Theorem cli_analyze_passes_validation {AppData : Type}
    (getAppData : nat -> Z -> outcome AppData)
    (getSimilarApps : Z -> outcome (list Collect.SimilarApp))
    (args : list jsstring) (appId : jsstring) :
  cli args = Analyze appId ->
  exists n,
    args !! 0%nat = Some appId
    /\ appId <> str "-search"
    /\ parseInt appId (Some 10) = Some n
    /\ 0 < n
    /\ head (snd (Collect.collectAppData getAppData getSimilarApps appId))
       = Some (Collect.GetAppData 0 n).
Proof.
  unfold cli. destruct args as [|arg0 args']; [discriminate|].
  destruct (bool_decide (arg0 = str "-search")) eqn:Hs.
  - destruct ((arg0 :: args') !! 1%nat) as [[|k ks]|]; try discriminate.
    destruct (_ || _); discriminate.
  - apply bool_decide_eq_false_1 in Hs.
    destruct (parseInt arg0 (Some 10)) as [n|] eqn:Hparse; [|discriminate].
    destruct (Z.leb_spec n 0); [discriminate|].
    intros [= <-]. exists n.
    split; [reflexivity|]. split; [assumption|]. split; [assumption|].
    split; [assumption|].
    apply collectAppData_first_fetch; assumption.
Qed.

Lemma cli_analyze_passes_validation_witness :
  exists n,
    parseInt (str "310633997") (Some 10) = Some n
    /\ head (snd (Collect.collectAppData secondSimilarFails fourSimilarApps
                    (str "310633997")))
       = Some (Collect.GetAppData 0 n).
Proof.
  destruct (cli_analyze_passes_validation secondSimilarFails fourSimilarApps
              [str "310633997"] (str "310633997"))
    as (n & _ & _ & Hparse & _ & Hhead).
  - reflexivity.
  - exists n. split; [exact Hparse | exact Hhead].
Defined.



(** X7. [collectAppData] resolves exactly when the app id is valid and
    the two fetches for the primary app succeed (its metadata and the
    list of similar apps); no failure of a similar app's fetch makes it
    reject. When it rejects, no similar app has been fetched and nothing
    has been logged as a skipped app. *)
Theorem collectAppData_resolves_iff {AppData : Type}
    (getAppData : nat -> Z -> outcome AppData)
    (getSimilarApps : Z -> outcome (list Collect.SimilarApp))
    (appId : jsstring) :
  ((exists c tr,
      Collect.collectAppData getAppData getSimilarApps appId = (Resolved c, tr))
   <-> (exists n main all,
          parseInt appId (Some 10) = Some n /\ 0 < n
          /\ getAppData 0%nat n = Resolved main
          /\ getSimilarApps n = Resolved all))
  /\ (forall message tr,
        Collect.collectAppData getAppData getSimilarApps appId
          = (Rejected message, tr) ->
        (length (Collect.fetchCalls tr) <= 1)%nat /\ Collect.warnings tr = []).
Proof.
  unfold Collect.collectAppData.
  destruct (parseInt appId (Some 10)) as [n|] eqn:Hparse.
  - destruct (Z.leb_spec n 0) as [Hle | Hgt].
    + split.
      * split; [intros (c & tr & [=]) | intros (n' & ? & ? & [= <-] & ? & _); lia].
      * intros m tr [= <- <-]. split; [simpl; lia | reflexivity].
    + destruct (getAppData 0%nat n) as [main|m1] eqn:Hmain.
      * destruct (getSimilarApps n) as [all|m2] eqn:Hsim.
        -- split; [|intros m tr [=]].
           split; [|intros _; eexists; eexists; reflexivity].
           intros _. exists n, main, all. auto.
        -- split.
           ++ split; [intros (c & tr & [=])|].
              intros (n' & ? & ? & [= <-] & _ & _ & Hs). congruence.
           ++ intros m tr [= <- <-]. split; [simpl; lia | reflexivity].
      * split.
        -- split; [intros (c & tr & [=])|].
           intros (n' & ? & ? & [= <-] & _ & Hm & _). congruence.
        -- intros m tr [= <- <-]. split; [simpl; lia | reflexivity].
  - split.
    + split; [intros (c & tr & [=]) | intros (n' & ? & ? & [=] & _)].
    + intros m tr [= <- <-]. split; [simpl; lia | reflexivity].
Qed.

Lemma collectAppData_resolves_iff_witness :
  (length (Collect.fetchCalls (@nil Collect.event)) <= 1)%nat
  /\ Collect.warnings (@nil Collect.event) = [].
Proof.
  apply (proj2 (collectAppData_resolves_iff secondSimilarFails fourSimilarApps
                  (str "-5")) (str "App ID must be a valid numeric value")).
  reflexivity.
Defined.

(* ===================================================================== *)
(** ** The app analysis *)
(* ===================================================================== *)

Section AnalyzeFacts.

Context {AppData : Type}.
Variable generateKeywords : nat -> AppData -> outcome (list jsstring).
Variable analyzeKeyword : nat -> jsstring -> outcome Analysis.t.

Lemma generateSimilar_spec (apps : list AppData) (st : Analyze.genState) :
  let st' := Analyze.generateSimilar generateKeywords apps st in
  Analyze.gathered st'
    = Analyze.gathered st
        ++ Analyze.gatheredFrom generateKeywords (Analyze.generated st) apps
  /\ Analyze.generatorCalls (Analyze.genLog st')
     = Analyze.generatorCalls (Analyze.genLog st) ++ apps.
Proof.
  revert st. induction apps as [|app apps IH]; intros st.
  - simpl. rewrite !app_nil_r. auto.
  - cbn [Analyze.generateSimilar Analyze.gatheredFrom].
    destruct (generateKeywords (Analyze.generated st) app) as [ks|m];
      match goal with |- context [Analyze.generateSimilar _ _ ?s] =>
        destruct (IH s) as (H1 & H2) end;
      cbn zeta; rewrite H1, H2;
      cbn [Analyze.gathered Analyze.generated Analyze.genLog];
      unfold Analyze.generatorCalls;
      rewrite !omap_app, <- !app_assoc; auto.
Qed.

Lemma analyzeEach_spec (keywords : list jsstring) (st : Analyze.sampleState) :
  let st' := Analyze.analyzeEach analyzeKeyword keywords st in
  Analyze.scoredKeywords (Analyze.scoreLog st')
    = Analyze.scoredKeywords (Analyze.scoreLog st) ++ keywords
  /\ (length (Analyze.samples st')
      + length (Analyze.failedKeywords (Analyze.scoreLog st'))
      = length (Analyze.samples st)
        + length (Analyze.failedKeywords (Analyze.scoreLog st))
        + length keywords)%nat
  /\ (exists ks,
        List.map Analyze.keyword (Analyze.samples st')
          = List.map Analyze.keyword (Analyze.samples st) ++ ks
        /\ sublist ks keywords).
Proof.
  revert st. induction keywords as [|k keywords IH]; intros st.
  - simpl. rewrite !app_nil_r. split; [reflexivity|]. split; [lia|].
    exists []. rewrite app_nil_r. split; [reflexivity | constructor].
  - cbn [Analyze.analyzeEach].
    destruct (analyzeKeyword (Analyze.scored st) k) as [a|m];
      match goal with |- context [Analyze.analyzeEach _ _ ?s] =>
        destruct (IH s) as (H1 & H2 & ks & H3 & H4) end;
      cbn zeta; rewrite H1, H2, H3;
      cbn [Analyze.samples Analyze.scored Analyze.scoreLog];
      unfold Analyze.scoredKeywords, Analyze.failedKeywords;
      rewrite ?omap_app, ?List.map_app, ?length_app, <- ?app_assoc;
      cbn [omap List.map length app Analyze.keyword option_bind mbind];
      (split; [reflexivity|]); (split; [simpl; lia|]).
    + exists (k :: ks). split; [reflexivity|]. constructor. assumption.
    + exists ks. split; [reflexivity|]. constructor. assumption.
Qed.

End AnalyzeFacts.

(** X8. When the generation for the main app succeeds, [generateAppKeywords]
    resolves, whatever happens to the similar apps: the generator is
    called for the main app and then once for each similar app, in order;
    the similar apps' keywords are those of the generations that
    succeeded, in order (a failed one is skipped), and [allKeywords] is
    the main app's keywords followed by the similar apps' keywords. *)
Theorem generateAppKeywords_resolves {AppData : Type}
    (generateKeywords : nat -> AppData -> outcome (list jsstring))
    (appData : AppData) (similarApps : list AppData)
    (mainKeywords : list jsstring) :
  generateKeywords 0%nat appData = Resolved mainKeywords ->
  exists similar tr,
    Analyze.generateAppKeywords generateKeywords appData similarApps
      = (Resolved {| Analyze.mainAppKeywords := mainKeywords;
                     Analyze.similarAppKeywords := similar;
                     Analyze.allKeywords := mainKeywords ++ similar |}, tr)
    /\ similar = Analyze.gatheredFrom generateKeywords 1 similarApps
    /\ Analyze.generatorCalls tr = appData :: similarApps.
Proof.
  intros Hmain. unfold Analyze.generateAppKeywords. rewrite Hmain.
  match goal with |- context [Analyze.generateSimilar _ ?a ?s] =>
    destruct (generateSimilar_spec generateKeywords a s) as (H1 & H2) end.
  cbn zeta in H1, H2. cbn [Analyze.gathered Analyze.generated app] in H1.
  eexists. eexists. split; [reflexivity|]. split; [exact H1 | exact H2].
Qed.

Lemma generateAppKeywords_resolves_witness :
  exists tr,
    Analyze.generateAppKeywords secondGenerationFails 65 [70; 75; 80]
      = (Resolved {| Analyze.mainAppKeywords := [str "A"; str "B"];
                     Analyze.similarAppKeywords :=
                       [str "F"; str "G"; str "P"; str "Q"];
                     Analyze.allKeywords :=
                       [str "A"; str "B"; str "F"; str "G"; str "P"; str "Q"] |},
         tr)
    /\ Analyze.generatorCalls tr = [65; 70; 75; 80].
Proof.
  destruct (generateAppKeywords_resolves secondGenerationFails 65 [70; 75; 80]
              [str "A"; str "B"])
    as (similar & tr & Hrun & Hsim & Hcalls).
  - reflexivity.
  - exists tr. subst similar. split; [exact Hrun | exact Hcalls].
Defined.



Lemma collectAppData_bounds {AppData : Type}
    (getAppData : nat -> Z -> outcome AppData)
    (getSimilarApps : Z -> outcome (list Collect.SimilarApp))
    (appId : jsstring) :
  (length (Collect.fetchCalls
             (snd (Collect.collectAppData getAppData getSimilarApps appId)))
   <= 4)%nat
  /\ match fst (Collect.collectAppData getAppData getSimilarApps appId) with
     | Resolved c => (length (Collect.similarApps c) <= 3)%nat
     | Rejected _ => True
     end.
Proof.
  unfold Collect.collectAppData.
  destruct (parseInt appId (Some 10)) as [n|]; [|simpl; split; [lia | exact I]].
  destruct (n <=? 0); [simpl; split; [lia | exact I]|].
  destruct (getAppData 0%nat n); [|simpl; split; [lia | exact I]].
  destruct (getSimilarApps n) as [all|]; [|simpl; split; [lia | exact I]].
  change 3 with (Z.of_nat 3). rewrite slice_prefix. cbn [fst snd].
  match goal with |- context [Collect.scrapeSimilarApps _ ?a ?s] =>
    destruct (scrapeSimilarApps_spec getAppData a s) as (H1 & H2 & _)
  end.
  cbn zeta in H1, H2.
  cbn [Collect.similarAppsData Collect.calls Collect.trace app] in H1, H2.
  pose proof (fetched_failed_length getAppData 1 (take 3 all)) as Hlen.
  pose proof (length_take all 3) as Htake.
  cbn [Collect.similarApps]. rewrite H1, H2.
  change (Collect.fetchCalls [Collect.GetAppData 0 n; Collect.GetSimilarApps n])
    with [(0%nat, n)].
  rewrite length_app, length_combine, length_seq, length_map. simpl. lia.
Qed.

(** X10. [analyzeApp] makes at most 4 metadata fetches, 4 generator calls
    and 5 scorer calls. It resolves exactly when [collectAppData] resolves
    and the generation for the main app succeeds, and then its
    [allKeywords] are the main app's keywords followed by the similar
    apps' keywords, the generator was called for the main app and for
    each similar app collected (3 at most), and [keywordAnalysis] has at
    most 5 entries. When it rejects, the scorer has not been called; when
    [collectAppData] is what failed, the generator has not been called
    either. *)
Theorem analyzeApp_outcome {AppData : Type}
    (generateKeywords : nat -> AppData -> outcome (list jsstring))
    (analyzeKeyword : nat -> jsstring -> outcome Analysis.t)
    (shuffle : list jsstring -> list jsstring)
    (getAppData : nat -> Z -> outcome AppData)
    (getSimilarApps : Z -> outcome (list Collect.SimilarApp))
    (appId : jsstring) :
  let run := Analyze.analyzeApp generateKeywords analyzeKeyword shuffle
               getAppData getSimilarApps appId in
  let collect := Collect.collectAppData getAppData getSimilarApps appId in
  ((length (Collect.fetchCalls (Analyze.collectLog (snd run))) <= 4)%nat
   /\ (length (Analyze.generatorCalls (Analyze.generateLog (snd run))) <= 4)%nat
   /\ (length (Analyze.scoredKeywords (Analyze.analyzeLog (snd run))) <= 5)%nat)
  /\ Analyze.collectLog (snd run) = snd collect
  /\ match fst run with
     | Resolved r =>
         (exists c ks,
            fst collect = Resolved c
            /\ generateKeywords 0%nat (Collect.appData c) = Resolved ks
            /\ Analyze.appData r = Collect.appData c
            /\ Analyze.similarApps r = Collect.similarApps c
            /\ Analyze.mainAppKeywords (Analyze.keywords r) = ks)
         /\ Analyze.allKeywords (Analyze.keywords r)
            = Analyze.mainAppKeywords (Analyze.keywords r)
                ++ Analyze.similarAppKeywords (Analyze.keywords r)
         /\ Analyze.generatorCalls (Analyze.generateLog (snd run))
            = Analyze.appData r :: Analyze.similarApps r
         /\ (length (Analyze.similarApps r) <= 3)%nat
         /\ (length (Analyze.keywordAnalysis r) <= 5)%nat
     | Rejected message =>
         Analyze.analyzeLog (snd run) = []
         /\ ((fst collect = Rejected message
              /\ Analyze.generateLog (snd run) = [])
             \/ (exists c,
                   fst collect = Resolved c
                   /\ generateKeywords 0%nat (Collect.appData c)
                      = Rejected message))
     end.
Proof.
  intros run collect.
  pose proof (collectAppData_bounds getAppData getSimilarApps appId)
    as [Hfetch Hsim].
  fold collect in Hfetch, Hsim.
  unfold run, Analyze.analyzeApp. fold collect.
  destruct collect as [[c|m] tr]; cbn [fst snd] in *.
  2: { cbn [fst snd Analyze.collectLog Analyze.generateLog Analyze.analyzeLog].
       split; [split; [exact Hfetch | split; simpl; lia]|].
       split; [reflexivity|]. split; [reflexivity|]. left. auto. }
  unfold Analyze.generateAppKeywords.
  destruct (generateKeywords 0%nat (Collect.appData c)) as [ks|m] eqn:Hmain.
  2: { cbn [fst snd Analyze.collectLog Analyze.generateLog Analyze.analyzeLog].
       split; [split; [exact Hfetch | split; simpl; lia]|].
       split; [reflexivity|]. split; [reflexivity|]. right. eauto. }
  match goal with |- context [Analyze.generateSimilar _ ?a ?s] =>
    destruct (generateSimilar_spec generateKeywords a s) as (H1 & H2) end.
  cbn zeta in H1, H2.
  cbn [Analyze.gathered Analyze.generated Analyze.genLog app] in H1, H2.
  change (Analyze.generatorCalls [Analyze.GenerateKeywords 0 (Collect.appData c)])
    with [Collect.appData c] in H2. cbn [app] in H2.
  unfold Analyze.analyzeRandomKeywords.
  change 5 with (Z.of_nat 5). rewrite slice_prefix.
  match goal with |- context [Analyze.analyzeEach _ ?k ?s] =>
    destruct (analyzeEach_spec analyzeKeyword k s) as (H3 & H4 & _);
    set (k5 := k) in *
  end.
  cbn zeta in H3, H4. cbn [Analyze.samples Analyze.scoreLog] in H3, H4.
  change (Analyze.scoredKeywords []) with (@nil jsstring) in H3.
  change (Analyze.failedKeywords []) with (@nil jsstring) in H4.
  cbn [length app Nat.add] in H3, H4.
  assert (length k5 <= 5)%nat as Hk5 by (unfold k5; rewrite length_take; lia).
  cbn [fst snd Analyze.collectLog Analyze.generateLog Analyze.analyzeLog
       Analyze.appData Analyze.similarApps Analyze.keywords
       Analyze.keywordAnalysis Analyze.allKeywords Analyze.mainAppKeywords
       Analyze.similarAppKeywords].
  rewrite H2, H3. cbn [length].
  split; [split; [exact Hfetch | split; lia]|]. split; [reflexivity|].
  split; [exists c, ks; auto|]. split; [reflexivity|]. split; [reflexivity|].
  split; [assumption | lia].
Qed.

Lemma analyzeApp_outcome_witness :
  exists r lg,
    Analyze.analyzeApp secondGenerationFails oddCallsFail (@rev jsstring)
      secondSimilarFails fourSimilarApps (str "7")
    = (Resolved r, lg)
    /\ Analyze.allKeywords (Analyze.keywords r)
       = Analyze.mainAppKeywords (Analyze.keywords r)
           ++ Analyze.similarAppKeywords (Analyze.keywords r)
    /\ (length (Analyze.similarApps r) <= 3)%nat
    /\ Analyze.similarApps r = [1010; 1030].
Proof.
  pose proof (analyzeApp_outcome secondGenerationFails oddCallsFail
                (@rev jsstring) secondSimilarFails fourSimilarApps (str "7"))
    as H.
  cbv zeta in H.
  destruct (Analyze.analyzeApp secondGenerationFails oddCallsFail
              (@rev jsstring) secondSimilarFails fourSimilarApps (str "7"))
    as [[r|m] lg] eqn:Hrun; [|vm_compute in Hrun; discriminate].
  cbn [fst snd] in H. destruct H as (_ & _ & _ & Hall & _ & Hsim & _).
  exists r, lg. split; [reflexivity|]. split; [exact Hall|].
  split; [exact Hsim|].
  vm_compute in Hrun. injection Hrun as <- _. reflexivity.
Defined.

(* ===================================================================== *)
(** ** The keyword generator *)
(* ===================================================================== *)

Lemma startsWith_spec (s p : jsstring) :
  Generator.startsWith s p = true <-> exists rest, s = p ++ rest.
Proof.
  revert s. induction p as [|c p IH]; intros s.
  - simpl. split; [eauto | reflexivity].
  - destruct s as [|d s]; simpl.
    + split; [discriminate | intros [rest [=]]].
    + rewrite andb_true_iff, N.eqb_eq, IH. split.
      * intros [-> [rest ->]]. eauto.
      * intros [rest [= -> ->]]. eauto.
Qed.

Lemma includes_spec (s sub : jsstring) :
  Generator.includes s sub = true <-> exists pre post, s = pre ++ sub ++ post.
Proof.
  induction s as [|d s IH].
  - simpl. rewrite orb_false_r, startsWith_spec. split.
    + intros [rest H]. exists [], rest. exact H.
    + intros (pre & post & H). destruct pre; [eauto | discriminate].
  - cbn [Generator.includes]. rewrite orb_true_iff, startsWith_spec, IH. split.
    + intros [[rest H] | (pre & post & ->)].
      * exists [], rest. exact H.
      * exists (d :: pre), post. reflexivity.
    + intros (pre & post & H). destruct pre as [|e pre].
      * left. eauto.
      * right. injection H as -> ->. eauto.
Qed.

Section GeneratorFacts.

Variable fetch : nat -> jsstring -> outcome Generator.response.
Variable readFileSync : nat -> jsstring -> outcome (list N).
Variable messagesCreate :
  list Generator.contentPart -> outcome (list Generator.block).
Variable toBase64 : list N -> jsstring.
Variable toLowerCase : jsstring -> jsstring.

Lemma detectMediaType_known (contentType : option jsstring) (imageUrl : jsstring) :
  In (Generator.detectMediaType toLowerCase contentType imageUrl)
     Generator.mediaTypes.
Proof.
  unfold Generator.detectMediaType, Generator.mediaTypes.
  destruct contentType as [[|c ct]|];
    repeat match goal with
           | |- context [if ?b then _ else _] => destruct b
           end; simpl; auto.
Qed.

Lemma addScreenshots_spec (k : nat) (screenshots : list jsstring)
    (content : list Generator.contentPart) :
  Generator.addScreenshots fetch readFileSync toBase64 toLowerCase
                           k screenshots content
  = content
      ++ imageParts (Generator.processScreenshot fetch readFileSync toBase64
                                                 toLowerCase)
                    k screenshots.
Proof.
  revert k content. induction screenshots as [|s rest IH]; intros k content.
  - simpl. rewrite app_nil_r. reflexivity.
  - cbn [Generator.addScreenshots imageParts]. rewrite IH.
    destruct (Generator.processScreenshot _ _ _ _ k s);
      [rewrite <- app_assoc|]; reflexivity.
Qed.

Lemma processScreenshot_part (k : nat) (screenshot : jsstring)
    (part : Generator.contentPart) :
  Generator.processScreenshot fetch readFileSync toBase64 toLowerCase
                              k screenshot = Resolved part ->
  exists media data,
    part = Generator.Image media data
    /\ In media Generator.mediaTypes
    /\ (isUrl screenshot = false -> media = str "image/jpeg").
Proof.
  unfold Generator.processScreenshot. fold (isUrl screenshot).
  destruct (isUrl screenshot).
  - unfold Generator.fetchImageAsBase64.
    destruct (fetch k screenshot) as [r|]; [|discriminate].
    destruct (negb (Generator.ok r)); [discriminate|].
    destruct (Generator.arrayBuffer r); [|discriminate].
    intros [= <-]. eexists. eexists. split; [reflexivity|].
    split; [apply detectMediaType_known | discriminate].
  - unfold Generator.readImageAsBase64.
    destruct (readFileSync k screenshot); [|discriminate].
    intros [= <-]. eexists. eexists. split; [reflexivity|].
    split; [right; left; reflexivity | reflexivity].
Qed.

End GeneratorFacts.

(** X11. The media type that [fetchImageAsBase64] reports is always one
    of image/png, image/jpeg, image/webp and image/gif. A non-empty
    Content-Type header decides alone: the URL is not looked at, even
    when the header names none of the four types (the type is then
    image/jpeg); a header that contains image/png gives image/png. Only
    without a header (or with an empty one) does the lower-cased URL
    decide, ".png" first. *)
Theorem detectMediaType_spec (toLowerCase : jsstring -> jsstring)
    (contentType : option jsstring) (imageUrl : jsstring) :
  In (Generator.detectMediaType toLowerCase contentType imageUrl)
     Generator.mediaTypes
  /\ (forall c ct, contentType = Some (c :: ct) ->
      forall toLowerCase' imageUrl',
        Generator.detectMediaType toLowerCase contentType imageUrl
        = Generator.detectMediaType toLowerCase' contentType imageUrl')
  /\ (forall c ct, contentType = Some (c :: ct) ->
        Generator.includes (c :: ct) (str "image/") = false ->
        Generator.detectMediaType toLowerCase contentType imageUrl
        = str "image/jpeg")
  /\ (forall pre post,
        contentType = Some (pre ++ str "image/png" ++ post) ->
        Generator.detectMediaType toLowerCase contentType imageUrl
        = str "image/png")
  /\ (contentType = None \/ contentType = Some [] ->
      forall pre post,
        toLowerCase imageUrl = pre ++ str ".png" ++ post ->
        Generator.detectMediaType toLowerCase contentType imageUrl
        = str "image/png").
Proof.
  split; [apply detectMediaType_known|]. split; [|split; [|split]].
  - intros c ct -> f url'. reflexivity.
  - intros c ct -> Hnone. unfold Generator.detectMediaType.
    assert (forall t, Generator.includes (c :: ct) (str "image/" ++ t) = false)
      as Hno.
    { intros t. destruct (Generator.includes (c :: ct) (str "image/" ++ t))
        eqn:Hi; [|reflexivity].
      apply includes_spec in Hi. destruct Hi as (pre & post & Hi).
      assert (Generator.includes (c :: ct) (str "image/") = true) as Hyes;
        [|congruence].
      apply includes_spec.
      exists pre, (t ++ post). rewrite Hi, <- !app_assoc. reflexivity. }
    pose proof (Hno (str "png")) as Hpng. pose proof (Hno (str "jpeg")) as Hjpeg.
    pose proof (Hno (str "jpg")) as Hjpg. pose proof (Hno (str "webp")) as Hwebp.
    pose proof (Hno (str "gif")) as Hgif.
    change (str "image/" ++ str "png") with (str "image/png") in Hpng.
    change (str "image/" ++ str "jpeg") with (str "image/jpeg") in Hjpeg.
    change (str "image/" ++ str "jpg") with (str "image/jpg") in Hjpg.
    change (str "image/" ++ str "webp") with (str "image/webp") in Hwebp.
    change (str "image/" ++ str "gif") with (str "image/gif") in Hgif.
    rewrite Hpng, Hjpeg, Hjpg, Hwebp, Hgif. reflexivity.
  - intros pre post ->. unfold Generator.detectMediaType.
    assert (Generator.includes (pre ++ str "image/png" ++ post) (str "image/png")
            = true) as Hi by (apply includes_spec; eauto).
    destruct (pre ++ str "image/png" ++ post) as [|c ct] eqn:Hct.
    + destruct pre; discriminate.
    + rewrite Hi. reflexivity.
  - intros Hct pre post Hurl.
    assert (Generator.includes (toLowerCase imageUrl) (str ".png") = true)
      as Hi by (apply includes_spec; eauto).
    unfold Generator.detectMediaType.
    destruct Hct as [-> | ->]; rewrite Hi; reflexivity.
Qed.

Lemma detectMediaType_spec_witness :
  Generator.detectMediaType (fun s => s)
                            (Some (str "application/octet-stream"))
                            (str "https://cdn/shot.png")
  = str "image/jpeg".
Proof.
  apply (proj1 (proj2 (proj2 (detectMediaType_spec (fun s => s)
           (Some (str "application/octet-stream"))
           (str "https://cdn/shot.png"))))
           97%N (str "pplication/octet-stream")); reflexivity.
Defined.

(** X12. [fetchImageAsBase64] resolves exactly when the download
    resolves with an ok status and its body can be read, and then with
    the base64 of the body and one of the four media types. Every
    failure, a status that is not ok included, reaches the caller as the
    one error "Failed to fetch image: " followed by the URL: the status
    code and the original message do not. *)
Theorem fetchImageAsBase64_outcome
    (fetch : nat -> jsstring -> outcome Generator.response)
    (toBase64 : list N -> jsstring) (toLowerCase : jsstring -> jsstring)
    (k : nat) (imageUrl : jsstring) :
  match Generator.fetchImageAsBase64 fetch toBase64 toLowerCase k imageUrl with
  | Resolved image =>
      exists r buffer,
        fetch k imageUrl = Resolved r
        /\ Generator.ok r = true
        /\ Generator.arrayBuffer r = Resolved buffer
        /\ Generator.base64 image = toBase64 buffer
        /\ In (Generator.mediaType image) Generator.mediaTypes
  | Rejected message =>
      message = str "Failed to fetch image: " ++ imageUrl
      /\ ~ (exists r buffer,
              fetch k imageUrl = Resolved r
              /\ Generator.ok r = true
              /\ Generator.arrayBuffer r = Resolved buffer)
  end.
Proof.
  unfold Generator.fetchImageAsBase64.
  destruct (fetch k imageUrl) as [r|m] eqn:Hf.
  - destruct (Generator.ok r) eqn:Hok; cbn [negb].
    + destruct (Generator.arrayBuffer r) as [buffer|m] eqn:Hb.
      * exists r, buffer. repeat (split; [reflexivity || assumption|]).
        apply detectMediaType_known.
      * split; [reflexivity|]. intros (r' & b & [= <-] & _ & Hb'). congruence.
    + split; [reflexivity|]. intros (r' & b & [= <-] & Hok' & _). congruence.
  - split; [reflexivity|]. intros (r' & b & [=] & _).
Qed.

Section SentContent.

Variable fetch : nat -> jsstring -> outcome Generator.response.
Variable readFileSync : nat -> jsstring -> outcome (list N).
Variable toBase64 : list N -> jsstring.
Variable toLowerCase : jsstring -> jsstring.

Lemma imageParts_facts (k : nat) (screenshots : list jsstring) :
  let parts :=
    imageParts (Generator.processScreenshot fetch readFileSync toBase64
                                            toLowerCase) k screenshots in
  (length parts <= length screenshots)%nat
  /\ Forall (fun p => exists media data,
                        p = Generator.Image media data
                        /\ In media Generator.mediaTypes) parts
  /\ (Forall (fun s => isUrl s = false) screenshots ->
      Forall (fun p => exists data,
                         p = Generator.Image (str "image/jpeg") data) parts).
Proof.
  revert k. induction screenshots as [|s rest IH]; intros k.
  - simpl. split; [lia|]. split; [constructor|]. constructor.
  - cbn zeta. cbn [imageParts].
    destruct (IH (S k)) as (H1 & H2 & H3).
    destruct (Generator.processScreenshot _ _ _ _ k s) as [part|m] eqn:Hp.
    + destruct (processScreenshot_part fetch readFileSync toBase64 toLowerCase
                  k s part Hp) as (media & data & -> & Hm & Hlocal).
      split; [simpl; lia|]. split; [constructor; eauto|].
      intros Hall. inversion Hall as [|? ? Hs Hrest]; subst.
      constructor; [|auto]. rewrite (Hlocal Hs). eauto.
    + split; [simpl; lia|]. split; [assumption|].
      intros Hall. inversion Hall; subst. auto.
Qed.

End SentContent.

(** X13. The message that [generateKeywords] sends to the model is the
    prompt, with the app's title and description, followed by one image
    for each screenshot that could be processed, in the order of the
    screenshots: a screenshot that fails is skipped and the others are
    still sent. Every image carries one of the four media types, and a
    screenshot given as a local path is always sent as image/jpeg,
    whatever its extension. *)
Theorem generateKeywords_content
    (fetch : nat -> jsstring -> outcome Generator.response)
    (readFileSync : nat -> jsstring -> outcome (list N))
    (toBase64 : list N -> jsstring) (toLowerCase : jsstring -> jsstring)
    (appData : Generator.appData) :
  exists images,
    Generator.sentContent fetch readFileSync toBase64 toLowerCase appData
    = Generator.TextPrompt (Generator.title appData)
                           (Generator.description appData) :: images
    /\ images = imageParts (Generator.processScreenshot fetch readFileSync
                                                        toBase64 toLowerCase)
                           0 (Generator.screenshots appData)
    /\ (length images <= length (Generator.screenshots appData))%nat
    /\ Forall (fun p => exists media data,
                          p = Generator.Image media data
                          /\ In media Generator.mediaTypes) images
    /\ (Forall (fun s => isUrl s = false) (Generator.screenshots appData) ->
        Forall (fun p => exists data,
                           p = Generator.Image (str "image/jpeg") data) images).
Proof.
  eexists. split; [|split; [reflexivity|]].
  - unfold Generator.sentContent. rewrite addScreenshots_spec. reflexivity.
  - apply imageParts_facts.
Qed.

Lemma generateKeywords_content_witness :
  Generator.sentContent pngExceptSecond readableFiles (fun b => b) (fun s => s)
                        plantApp
  = [Generator.TextPrompt (str "PlantNet") (str "Identify plants");
     Generator.Image (str "image/png") [137%N; 80%N];
     Generator.Image (str "image/jpeg") [255%N; 216%N]].
Proof.
  destruct (generateKeywords_content pngExceptSecond readableFiles
              (fun b => b) (fun s => s) plantApp) as (images & -> & -> & _).
  reflexivity.
Defined.

(** X14. Of the model's answer [generateKeywords] looks at the first
    block of type tool_use only: when that block is a call of
    generate_app_keywords its keywords are the result, whatever blocks
    follow; when it is a call by another name, or when there is no
    tool_use block, the result is the error "No valid function call found
    in response", even if a later block is the right call. A failure of
    the request itself is passed on with its message. *)
Theorem generateKeywords_first_tool_use
    (fetch : nat -> jsstring -> outcome Generator.response)
    (readFileSync : nat -> jsstring -> outcome (list N))
    (messagesCreate : list Generator.contentPart -> outcome (list Generator.block))
    (toBase64 : list N -> jsstring) (toLowerCase : jsstring -> jsstring)
    (appData : Generator.appData) :
  let sent := Generator.sentContent fetch readFileSync toBase64 toLowerCase
                                    appData in
  let result := Generator.generateKeywords fetch readFileSync messagesCreate
                                           toBase64 toLowerCase appData in
  (forall types name keywords later,
     messagesCreate sent
       = Resolved (List.map Generator.OtherBlock types
                     ++ Generator.ToolUse name keywords :: later) ->
     result = if bool_decide (name = str "generate_app_keywords")
              then Resolved keywords
              else Rejected (str "No valid function call found in response"))
  /\ (forall types,
        messagesCreate sent = Resolved (List.map Generator.OtherBlock types) ->
        result = Rejected (str "No valid function call found in response"))
  /\ (forall message,
        messagesCreate sent = Rejected message -> result = Rejected message).
Proof.
  intros sent result.
  assert (forall types rest,
            Generator.findToolUse (List.map Generator.OtherBlock types ++ rest)
            = Generator.findToolUse rest) as Hskip.
  { intros types rest. induction types; simpl; auto. }
  unfold result, sent, Generator.generateKeywords, Generator.sentContent.
  cbv zeta. split; [|split].
  - intros types name keywords later ->. rewrite Hskip. reflexivity.
  - intros types ->.
    rewrite <- (app_nil_r (List.map _ types)), Hskip. reflexivity.
  - intros message ->. reflexivity.
Qed.

Lemma generateKeywords_first_tool_use_witness :
  Generator.generateKeywords pngExceptSecond readableFiles twoToolUses
                             (fun b => b) (fun s => s) plantApp
  = Resolved [str "plant id"; str "garden"].
Proof.
  apply (proj1 (generateKeywords_first_tool_use pngExceptSecond readableFiles
                  twoToolUses (fun b => b) (fun s => s) plantApp)
           [str "text"] (str "generate_app_keywords")
           [str "plant id"; str "garden"]
           [Generator.ToolUse (str "something_else") [str "ignored"]]).
  reflexivity.
Defined.

(* ===================================================================== *)
(** ** The keyword optimizer *)
(* ===================================================================== *)

Lemma fold_better_spec (rest pre post : list KeywordResult) (cur : KeywordResult) :
  Forall (fun r => Optimizer.scoreOf r < Optimizer.scoreOf cur) pre ->
  Forall (fun r => Optimizer.scoreOf r <= Optimizer.scoreOf cur) post ->
  exists pre' post',
    pre ++ cur :: post ++ rest
    = pre' ++ fold_left Optimizer.better rest cur :: post'
    /\ Forall (fun r => Optimizer.scoreOf r
                        < Optimizer.scoreOf (fold_left Optimizer.better rest cur))
              pre'
    /\ Forall (fun r => Optimizer.scoreOf r
                        <= Optimizer.scoreOf (fold_left Optimizer.better rest cur))
              post'.
Proof.
  revert pre post cur. induction rest as [|x rest IH]; intros pre post cur Hpre Hpost.
  - exists pre, post. rewrite app_nil_r. auto.
  - cbn [fold_left]. unfold Optimizer.better at 2 4 6.
    fold (Optimizer.scoreOf x). fold (Optimizer.scoreOf cur). cbv zeta.
    destruct (Z.gtb_spec (Optimizer.scoreOf x) (Optimizer.scoreOf cur))
      as [Hgt | Hle].
    + destruct (IH (pre ++ cur :: post) [] x) as (pre' & post' & Heq & H1 & H2).
      * apply Forall_app. split.
        -- eapply Forall_impl; [exact Hpre|]. simpl. intros; lia.
        -- constructor; [lia|].
           eapply Forall_impl; [exact Hpost|]. simpl. intros; lia.
      * constructor.
      * exists pre', post'. split; [|auto].
        rewrite <- Heq, <- !app_assoc. reflexivity.
    + destruct (IH pre (post ++ [x]) cur) as (pre' & post' & Heq & H1 & H2).
      * assumption.
      * apply Forall_app. split; [assumption|]. constructor; [lia | constructor].
      * exists pre', post'. split; [|auto].
        rewrite <- Heq, <- !app_assoc. reflexivity.
Qed.

(** X15. On a non-empty list [findBestKeyword] returns the keyword,
    scores and recommendation of the first result whose score,
    trafficScore minus difficultyScore, is the highest of the list: every
    result before it has a strictly lower score and none after it has a
    higher one. *)
Theorem findBestKeyword_spec (asoResults : list KeywordResult) :
  asoResults <> [] ->
  exists before b after,
    asoResults = before ++ b :: after
    /\ Optimizer.findBestKeyword asoResults
       = Resolved {| Optimizer.Best.keyword := keyword b;
                     Optimizer.Best.trafficScore := trafficScore b;
                     Optimizer.Best.difficultyScore := difficultyScore b;
                     Optimizer.Best.recommendation := recommendation b;
                     Optimizer.Best.score := trafficScore b - difficultyScore b |}
    /\ Forall (fun r => trafficScore r - difficultyScore r
                        < trafficScore b - difficultyScore b) before
    /\ Forall (fun r => trafficScore r - difficultyScore r
                        <= trafficScore b - difficultyScore b) after.
Proof.
  intros Hne. destruct asoResults as [|first rest]; [congruence|].
  destruct (fold_better_spec rest [] [] first) as (pre & post & Heq & H1 & H2);
    [constructor | constructor |].
  exists pre, (fold_left Optimizer.better rest first), post.
  split; [exact Heq|]. split; [reflexivity|]. split; [exact H1 | exact H2].
Qed.

Lemma findBestKeyword_spec_witness :
  exists before b after,
    [result "a" 50 30; result "b" 70 10; result "c" 80 20]
    = before ++ b :: after
    /\ Optimizer.findBestKeyword
         [result "a" 50 30; result "b" 70 10; result "c" 80 20]
       = Resolved {| Optimizer.Best.keyword := keyword b;
                     Optimizer.Best.trafficScore := trafficScore b;
                     Optimizer.Best.difficultyScore := difficultyScore b;
                     Optimizer.Best.recommendation := recommendation b;
                     Optimizer.Best.score := trafficScore b - difficultyScore b |}
    /\ Forall (fun r => trafficScore r - difficultyScore r
                        < trafficScore b - difficultyScore b) before
    /\ Forall (fun r => trafficScore r - difficultyScore r
                        <= trafficScore b - difficultyScore b) after.
Proof.
  apply (findBestKeyword_spec
           [result "a" 50 30; result "b" 70 10; result "c" 80 20]).
  discriminate.
Defined.

Lemma initialCounts_lookup (k : jsstring) :
  Optimizer.initialCounts !! k
  = if bool_decide (In k Optimizer.labels) then Some 0 else None.
Proof.
  unfold Optimizer.initialCounts, Optimizer.labels.
  repeat (rewrite lookup_insert; case_decide;
          [subst k; rewrite bool_decide_eq_true_2 by (cbn [In]; auto 10);
           reflexivity|]).
  rewrite lookup_empty. rewrite bool_decide_eq_false_2; [reflexivity|].
  cbn [In]. intuition congruence.
Qed.

Lemma fold_countRecommendation_lookup (rs : list KeywordResult)
    (counts : gmap (list N) Z) (k : jsstring) :
  fold_left Optimizer.countRecommendation rs counts !! k
  = (fun n => n + recommended k rs) <$> counts !! k.
Proof.
  revert counts. induction rs as [|r rs IH]; intros counts.
  - unfold recommended. simpl. destruct (counts !! k); simpl; f_equal; lia.
  - cbn [fold_left]. rewrite IH. unfold Optimizer.countRecommendation.
    unfold recommended. cbn [List.filter].
    destruct (counts !! recommendation r) as [n|] eqn:Hr.
    + rewrite lookup_insert. case_decide as Hk.
      * subst k. rewrite Hr, bool_decide_eq_true_2 by reflexivity.
        cbn. f_equal. lia.
      * rewrite bool_decide_eq_false_2 by congruence. reflexivity.
    + destruct (bool_decide_reflect (recommendation r = k)) as [<- | Hk];
        [|reflexivity].
      rewrite Hr. reflexivity.
Qed.

(** X16. [summarizeRecommendations] returns an object with exactly the
    five keys excellent, good, consider, challenging and avoid, each with
    the number of results that carry that recommendation; a result with
    any other recommendation (such as analysis_failed) is counted
    nowhere. *)
Theorem summarizeRecommendations_spec (asoResults : list KeywordResult)
    (k : jsstring) :
  Optimizer.summarizeRecommendations asoResults !! k
  = if bool_decide (In k Optimizer.labels)
    then Some (recommended k asoResults)
    else None.
Proof.
  unfold Optimizer.summarizeRecommendations.
  rewrite fold_countRecommendation_lookup, initialCounts_lookup.
  destruct (bool_decide (In k Optimizer.labels)); reflexivity.
Qed.

(** X17. When [optimizeKeywords] resolves, the generator gave a
    non-empty keyword list, the scorer was asked about
    [keywords.slice(0, keywordsToAnalyze)] (the first [keywordsToAnalyze]
    keywords when that number is not negative) and answered with at least
    one result, and the three external calls were made in the order
    generator, scorer, suggestions. The summary agrees with the workflow:
    its counts are the lengths of the three lists, its best keyword is
    [findBestKeyword] of the analysed results and its recommendation
    counts are those of the analysed results. *)
Theorem optimizeKeywords_resolved {AppData : Type}
    (generateKeywords : AppData -> outcome (option (list jsstring)))
    (analyzeKeywords : list jsstring -> outcome (list KeywordResult))
    (messagesCreate : AppData -> list KeywordResult -> outcome (list Generator.block))
    (appData : AppData) (keywordsToAnalyze : Z)
    (r : Optimizer.optimization) (tr : list Optimizer.event) :
  Optimizer.optimizeKeywords generateKeywords analyzeKeywords messagesCreate
                             appData keywordsToAnalyze = (Resolved r, tr) ->
  let keywordsToTest :=
    slice (Optimizer.initialKeywords r) 0 keywordsToAnalyze in
  generateKeywords appData = Resolved (Some (Optimizer.initialKeywords r))
  /\ Optimizer.initialKeywords r <> []
  /\ (0 <= keywordsToAnalyze ->
      keywordsToTest
      = take (Z.to_nat keywordsToAnalyze) (Optimizer.initialKeywords r))
  /\ analyzeKeywords keywordsToTest = Resolved (Optimizer.analyzedKeywords r)
  /\ Optimizer.analyzedKeywords r <> []
  /\ Optimizer.getSuggestionsBasedOnASO messagesCreate appData
       (Optimizer.analyzedKeywords r)
     = Resolved (Optimizer.additionalSuggestions r)
  /\ tr = [Optimizer.GenerateKeywords; Optimizer.AnalyzeKeywords keywordsToTest;
           Optimizer.CreateMessage]
  /\ Optimizer.totalInitialKeywords r = length (Optimizer.initialKeywords r)
  /\ Optimizer.analyzedCount r = length (Optimizer.analyzedKeywords r)
  /\ Optimizer.additionalSuggestionsCount r
     = length (Optimizer.additionalSuggestions r)
  /\ Optimizer.findBestKeyword (Optimizer.analyzedKeywords r)
     = Resolved (Optimizer.bestPerformingKeyword r)
  /\ Optimizer.recommendations r
     = Optimizer.summarizeRecommendations (Optimizer.analyzedKeywords r).
Proof.
  unfold Optimizer.optimizeKeywords.
  destruct (generateKeywords appData) as [[[|k ks]|]|m] eqn:Hgen;
    try discriminate.
  destruct (analyzeKeywords (slice (k :: ks) 0 keywordsToAnalyze))
    as [aso|m] eqn:Haso; [|discriminate].
  destruct (Optimizer.getSuggestionsBasedOnASO messagesCreate appData aso)
    as [sugg|m] eqn:Hsugg; [|discriminate].
  destruct (Optimizer.findBestKeyword aso) as [b|m] eqn:Hbest; [|discriminate].
  intros [= <- <-]. cbn [Optimizer.initialKeywords Optimizer.analyzedKeywords
    Optimizer.additionalSuggestions Optimizer.totalInitialKeywords
    Optimizer.analyzedCount Optimizer.additionalSuggestionsCount
    Optimizer.bestPerformingKeyword Optimizer.recommendations].
  cbv zeta.
  split; [reflexivity|]. split; [discriminate|]. split.
  { intros HN. rewrite <- (Z2Nat.id keywordsToAnalyze) at 1 by assumption.
    apply slice_prefix. }
  split; [exact Haso|]. split.
  { intros ->. discriminate. }
  repeat (split; [reflexivity || assumption|]). reflexivity.
Qed.

Lemma optimizeKeywords_resolved_witness :
  exists r tr,
    Optimizer.optimizeKeywords threeKeywords scoreByLength oneSuggestion 7 2
      = (Resolved r, tr)
    /\ tr = [Optimizer.GenerateKeywords;
             Optimizer.AnalyzeKeywords
               (slice (Optimizer.initialKeywords r) 0 2);
             Optimizer.CreateMessage]
    /\ Optimizer.analyzedCount r = length (Optimizer.analyzedKeywords r)
    /\ Optimizer.analyzedCount r = 2%nat
    /\ Optimizer.Best.keyword (Optimizer.bestPerformingKeyword r)
       = str "plant care".
Proof.
  destruct (Optimizer.optimizeKeywords threeKeywords scoreByLength
              oneSuggestion 7 2) as [[r|m] tr] eqn:Hrun;
    [|vm_compute in Hrun; discriminate].
  destruct (optimizeKeywords_resolved threeKeywords scoreByLength
              oneSuggestion 7 2 r tr Hrun)
    as (_ & _ & _ & _ & _ & _ & Htr & _ & Hcount & _).
  exists r, tr. split; [reflexivity|].
  split; [exact Htr|]. split; [exact Hcount|].
  vm_compute in Hrun. injection Hrun as <- _. split; reflexivity.
Defined.

(** X18. When the scorer answers with no result at all (as for
    [keywordsToAnalyze = 0]), [optimizeKeywords] rejects, but only after
    it has also requested the suggestions: all three external calls are
    made, and if the suggestions arrive the error is the [TypeError] of
    [reduce] on an empty array, thrown by [findBestKeyword]. *)
Theorem optimizeKeywords_empty_analysis {AppData : Type}
    (generateKeywords : AppData -> outcome (option (list jsstring)))
    (analyzeKeywords : list jsstring -> outcome (list KeywordResult))
    (messagesCreate : AppData -> list KeywordResult -> outcome (list Generator.block))
    (appData : AppData) (keywordsToAnalyze : Z) (keywords : list jsstring) :
  generateKeywords appData = Resolved (Some keywords) ->
  keywords <> [] ->
  analyzeKeywords (slice keywords 0 keywordsToAnalyze) = Resolved [] ->
  exists message,
    Optimizer.optimizeKeywords generateKeywords analyzeKeywords messagesCreate
                               appData keywordsToAnalyze
    = (Rejected message,
       [Optimizer.GenerateKeywords;
        Optimizer.AnalyzeKeywords (slice keywords 0 keywordsToAnalyze);
        Optimizer.CreateMessage])
    /\ ((exists suggestions,
           Optimizer.getSuggestionsBasedOnASO messagesCreate appData []
           = Resolved suggestions) ->
        message = str "Reduce of empty array with no initial value").
Proof.
  intros Hgen Hne Haso. unfold Optimizer.optimizeKeywords.
  rewrite Hgen. destruct keywords as [|k ks]; [congruence|]. rewrite Haso.
  destruct (Optimizer.getSuggestionsBasedOnASO messagesCreate appData [])
    as [sugg|m].
  - eexists. split; [reflexivity|]. reflexivity.
  - eexists. split; [reflexivity|]. intros [s [=]].
Qed.

Lemma optimizeKeywords_empty_analysis_witness :
  exists message,
    Optimizer.optimizeKeywords threeKeywords scoreByLength oneSuggestion 7 0
    = (Rejected message,
       [Optimizer.GenerateKeywords; Optimizer.AnalyzeKeywords [];
        Optimizer.CreateMessage])
    /\ ((exists suggestions,
           Optimizer.getSuggestionsBasedOnASO oneSuggestion 7 []
           = Resolved suggestions) ->
        message = str "Reduce of empty array with no initial value").
Proof.
  apply (optimizeKeywords_empty_analysis threeKeywords scoreByLength
           oneSuggestion 7 0 [str "plant"; str "plant care"; str "flower"]).
  - reflexivity.
  - discriminate.
  - reflexivity.
Defined.

(* ===================================================================== *)
(** ** The normalizer and the comma-separated form *)
(* ===================================================================== *)

Lemma split_no_separator (sep : N) (p : jsstring) :
  ~ In sep p -> split sep p = [p].
Proof.
  induction p as [|c p IH]; intros Hno; [reflexivity|].
  cbn [split]. destruct (N.eqb_spec c sep) as [-> | Hne].
  - exfalso. apply Hno. left. reflexivity.
  - rewrite IH; [reflexivity|]. intros Hin. apply Hno. right. assumption.
Qed.

Lemma split_app_separator (sep : N) (p rest : jsstring) :
  ~ In sep p -> split sep (p ++ sep :: rest) = p :: split sep rest.
Proof.
  induction p as [|c p IH]; intros Hno.
  - cbn [app split]. rewrite N.eqb_refl. reflexivity.
  - cbn [app split]. destruct (N.eqb_spec c sep) as [-> | Hne].
    + exfalso. apply Hno. left. reflexivity.
    + rewrite IH; [reflexivity|]. intros Hin. apply Hno. right. assumption.
Qed.

(** [split] undoes [join] on pieces without the separator. *)
Lemma split_join_inverse (sep : N) (ps : list jsstring) :
  ps <> [] -> Forall (fun p => ~ In sep p) ps ->
  split sep (join sep ps) = ps.
Proof.
  intros Hne Hall. revert Hne.
  induction Hall as [|p ps Hp Hall IH]; intros Hne;
    [exfalso; apply Hne; reflexivity|].
  destruct ps as [|q ps].
  - cbn [join]. apply split_no_separator. assumption.
  - change (join sep (p :: q :: ps)) with (p ++ sep :: join sep (q :: ps)).
    rewrite split_app_separator by assumption.
    f_equal. apply IH. discriminate.
Qed.

Lemma trimStart_id (k : jsstring) :
  (forall c, head k = Some c -> isWhiteSpace c = false) -> trimStart k = k.
Proof.
  destruct k as [|c k]; [reflexivity|]. intros H. cbn [trimStart].
  rewrite (H c eq_refl). reflexivity.
Qed.

Lemma trimEnd_id (k : jsstring) :
  (forall c, last k = Some c -> isWhiteSpace c = false) -> trimEnd k = k.
Proof.
  induction k as [|c k IH]; [reflexivity|]. intros H. cbn [trimEnd].
  destruct k as [|d k].
  - cbn [trimEnd]. rewrite (H c eq_refl). reflexivity.
  - rewrite IH by (intros e He; apply H; exact He). reflexivity.
Qed.

Lemma trim_id (k : jsstring) : trimmed k -> trim k = k.
Proof.
  intros [Hhead Hlast]. unfold trim.
  rewrite trimStart_id by assumption. apply trimEnd_id. assumption.
Qed.

Lemma normalizeKeywords_valid (keywordsString : jsstring) :
  Forall validKeyword (normalizeKeywords keywordsString).
Proof.
  unfold normalizeKeywords. apply List.Forall_forall. intros k Hk.
  apply filter_In in Hk. destruct Hk as [Hin Hlen].
  apply in_map_iff in Hin. destruct Hin as (p & <- & Hp).
  split; [intros Hnil; rewrite Hnil in Hlen; discriminate|].
  split; [apply trim_spec|].
  destruct (split_join 44 keywordsString) as [_ Hcomma].
  pose proof (proj1 (List.Forall_forall _ _) Hcomma p Hp) as Hno.
  destruct (trim_spec p) as [(pre & post & Heq & _) _].
  intros Hin. apply Hno. rewrite Heq.
  apply in_or_app. right. apply in_or_app. left. assumption.
Qed.

(** X19. What the normalizer returns survives the comma-separated form:
    every keyword it returns is non-empty, free of outer whitespace and
    of commas, and a list of such keywords, joined with commas and
    normalized, is that list again. So normalizing the joined output of
    the normalizer changes nothing. *)
Theorem normalizeKeywords_round_trip (keywords : list jsstring)
    (keywordsString : jsstring) :
  (Forall validKeyword keywords ->
   normalizeKeywords (join 44 keywords) = keywords)
  /\ Forall validKeyword (normalizeKeywords keywordsString)
  /\ normalizeKeywords (join 44 (normalizeKeywords keywordsString))
     = normalizeKeywords keywordsString.
Proof.
  assert (forall ks, Forall validKeyword ks ->
                     normalizeKeywords (join 44 ks) = ks) as Hround.
  { intros ks Hall. destruct (decide (ks = [])) as [-> | Hne]; [reflexivity|].
    unfold normalizeKeywords. rewrite split_join_inverse.
    - induction Hall as [|k ks (Hk & Htrim & _) Hall IH]; [reflexivity|].
      cbn [List.map List.filter]. rewrite (trim_id k Htrim).
      destruct k; [congruence|]. cbn [length Nat.ltb Nat.leb]. f_equal.
      destruct ks as [|k' ks']; [reflexivity|]. apply IH. discriminate.
    - assumption.
    - eapply Forall_impl; [exact Hall|]. intros k (_ & _ & Hk). exact Hk. }
  split; [apply Hround|].
  split; [apply normalizeKeywords_valid|].
  apply Hround, normalizeKeywords_valid.
Qed.

Lemma normalizeKeywords_round_trip_witness :
  normalizeKeywords (join 44 [str "photo editor"; str "ai"; str "photo editor"])
  = [str "photo editor"; str "ai"; str "photo editor"].
Proof.
  apply (proj1 (normalizeKeywords_round_trip
                  [str "photo editor"; str "ai"; str "photo editor"] [])).
  repeat constructor; try discriminate;
    try (intros c [= <-]; reflexivity);
    try (cbn; intuition discriminate).
Defined.

(* ===================================================================== *)
(** ** The standalone generator: options and defaults *)
(* ===================================================================== *)

(** X20. The configuration of the standalone [generateKeywords] is the
    options laid over the defaults: an option that is given is used as
    given, a falsy one such as a temperature of 0 included, because the
    spread of [options] comes after the [||] fallbacks and overwrites
    them; a default applies only to an option that is absent. *)
Theorem config_is_options_over_defaults {value : Type}
    (truthy : value -> bool)
    (defaultModel defaultMaxTokens defaultTemperature defaultMinKeywords : value)
    (options : gmap (list N) value) :
  Standalone.config truthy defaultModel defaultMaxTokens defaultTemperature
                    defaultMinKeywords options
  = options ∪ Standalone.defaultConfig defaultModel defaultMaxTokens
                                       defaultTemperature defaultMinKeywords
  /\ (forall k v,
        options !! k = Some v ->
        Standalone.config truthy defaultModel defaultMaxTokens
                          defaultTemperature defaultMinKeywords options !! k
        = Some v)
  /\ (options !! str "temperature" = None ->
      Standalone.config truthy defaultModel defaultMaxTokens
                        defaultTemperature defaultMinKeywords options
        !! str "temperature"
      = Some defaultTemperature).
Proof.
  assert (Standalone.config truthy defaultModel defaultMaxTokens
            defaultTemperature defaultMinKeywords options
          = options ∪ Standalone.defaultConfig defaultModel defaultMaxTokens
                        defaultTemperature defaultMinKeywords) as Heq.
  { apply map_eq. intros k.
    unfold Standalone.config, Standalone.defaultConfig.
    rewrite !lookup_union.
    destruct (options !! k) as [v|] eqn:Hk.
    - match goal with
      | |- Some v ∪ ?a = Some v ∪ ?b => destruct a, b; reflexivity
      end.
    - f_equal.
      unfold jsstring in *.
      destruct (decide (k = str "model")) as [-> | H1];
        [rewrite !lookup_insert_eq, Hk; reflexivity|].
      rewrite !(lookup_insert_ne _ (str "model")) by congruence.
      destruct (decide (k = str "maxTokens")) as [-> | H2];
        [rewrite !lookup_insert_eq, Hk; reflexivity|].
      rewrite !(lookup_insert_ne _ (str "maxTokens")) by congruence.
      destruct (decide (k = str "temperature")) as [-> | H3];
        [rewrite !lookup_insert_eq, Hk; reflexivity|].
      rewrite !(lookup_insert_ne _ (str "temperature")) by congruence.
      destruct (decide (k = str "minKeywords")) as [-> | H4];
        [rewrite !lookup_insert_eq, Hk; reflexivity|].
      rewrite !(lookup_insert_ne _ (str "minKeywords")) by congruence.
      reflexivity. }
  split; [exact Heq|]. split.
  - intros k v Hk. rewrite Heq, lookup_union, Hk.
    destruct (Standalone.defaultConfig _ _ _ _ !! k); reflexivity.
  - intros Hk. rewrite Heq, lookup_union, Hk. reflexivity.
Qed.

Lemma config_is_options_over_defaults_witness :
  Standalone.config (fun t => negb (t =? 0)) 4 2000 3 15
                    {[ str "temperature" := 0 ]}
    !! str "temperature"
  = Some 0.
Proof.
  apply (proj1 (proj2 (config_is_options_over_defaults
                         (fun t => negb (t =? 0)) 4 2000 3 15
                         {[ str "temperature" := 0 ]}))).
  reflexivity.
Defined.
